(** * Servo calibration sketch: a shallow embedding of [servo-calibration.ino]

    The sketch measures the speed of a continuous-turn servo with a photo
    resistor used as an optical interrupter.  It has three stages:
    range discovery ([getActiveSenseRange]), dead-band derivation
    ([calibrateBooleanSense]) and edge-triggered timing
    ([synchronizeToRotation], [loop]), all built on the hysteresis
    comparator [getAdcBoolean].

    Modelling choices.
    - [unsigned int] is the 16-bit type of the AVR boards the sketch is
      written for, [unsigned long] the 32-bit one; both are [Z] with the
      wrap-around written out ([uint], [ulong]).
    - The hardware (ADC pin, calibration pin, millisecond clock, serial
      port) is a scripted [World]: each [analogRead], [digitalRead] and
      [millis] consumes the next reading of its stream, each report is
      appended to the serial log.  A read from an exhausted stream yields
      [None]: the sketch is still polling when the script ends.
    - [analogRead] yields an [int] in 0..1023, on which the conversion to
      the [unsigned int] locals [adc] and [value] is the identity; the
      samples are kept as they come.
    - [float]/[double] values are kept as exact rationals; a division
      additionally yields the IEEE special values for a zero divisor
      ([fval]).  Rounding to the nearest representable float is not
      modelled; the product [extent * DEAD_BAND_FACTOR] of a 16-bit
      integer and 0.25 is exact in any case.
    - The two busy-waiting loops recurse on a counter set to the length
      of the script they consume, plus one: each iteration reads one
      entry, so the counter runs out only after the script has. *)

From Stdlib Require Import ZArith QArith Qround Qabs Qminmax Bool List Lia.
Import ListNotations.
Open Scope Z_scope.

(** ** Machine arithmetic *)

Module Arduino.

(** Value of an expression stored in an [unsigned int] (16 bits). *)
Definition uint (z : Z) : Z := z mod 65536.

(** Value of an expression stored in an [unsigned long] (32 bits). *)
Definition ulong (z : Z) : Z := z mod 4294967296.

(** Result of a floating-point division. *)
Inductive fval : Type :=
| FNum (q : Q)          (* a finite value *)
| FInf (negative : bool)  (* x / 0 with x <> 0 *)
| FNaN.                 (* 0 / 0 *)

Definition Qlt_bool (a b : Q) : bool := negb (Qle_bool b a).

(** [a / b] on finite operands, IEEE 754 style: no trap on a zero
    divisor. *)
Definition fdiv (a b : Q) : fval :=
  if Qeq_bool b 0 then
    if Qeq_bool a 0 then FNaN else FInf (Qlt_bool a 0)
  else FNum (Qred (a / b)).

(** The [min(a,b)] macro of Arduino.h, [((a)<(b)?(a):(b))], at type
    float. *)
Definition min (a b : Q) : Q := if Qlt_bool a b then a else b.

(** Conversion of a float to [unsigned int]: the fraction is dropped. *)
Definition float_to_uint (q : Q) : Z := uint (Z.quot (Qnum q) (Zpos (Qden q))).

End Arduino.
Import Arduino.

(** ** Constants of the sketch *)

Definition MAX_ADC : Z := 1023.
Definition MIN_ADC : Z := 0.
Definition DEAD_BAND_FACTOR : Q := 25 # 100.
Definition FIXED_DEAD_BAND : Z := 40.
Definition HIGH : bool := true.
Definition LOW : bool := false.

(** ** Globals of the sketch and the scripted hardware *)

Record Sketch : Type := mkSketch {
  threshold_false : Z;   (* threshold[false] *)
  threshold_true : Z;    (* threshold[true] *)
  adcState : bool;
  startTime : Z;
  revolutionStart : Z;
  revolutions : Z
}.

(** [threshold[b]]: the array is indexed by a boolean. *)
Definition threshold (g : Sketch) (b : bool) : Z :=
  if b then threshold_true g else threshold_false g.

Definition set_threshold (b : bool) (v : Z) (g : Sketch) : Sketch :=
  if b
  then mkSketch (threshold_false g) v (adcState g) (startTime g)
                (revolutionStart g) (revolutions g)
  else mkSketch v (threshold_true g) (adcState g) (startTime g)
                (revolutionStart g) (revolutions g).

Definition set_adcState (v : bool) (g : Sketch) : Sketch :=
  mkSketch (threshold_false g) (threshold_true g) v (startTime g)
           (revolutionStart g) (revolutions g).

Definition set_startTime (v : Z) (g : Sketch) : Sketch :=
  mkSketch (threshold_false g) (threshold_true g) (adcState g) v
           (revolutionStart g) (revolutions g).

Definition set_revolutionStart (v : Z) (g : Sketch) : Sketch :=
  mkSketch (threshold_false g) (threshold_true g) (adcState g) (startTime g)
           v (revolutions g).

Definition set_revolutions (v : Z) (g : Sketch) : Sketch :=
  mkSketch (threshold_false g) (threshold_true g) (adcState g) (startTime g)
           (revolutionStart g) v.

(** The globals as the sketch declares them: [adcState = HIGH],
    [revolutions = 0], the rest zero-initialised. *)
Definition initial : Sketch := mkSketch 0 0 HIGH 0 0 0.

(** One line written to the serial port. *)
Inductive Output : Type :=
| NewRange (lo hi at_ms : Z)
    (* "new range [lo, hi] at: at_ms" *)
| Revolution (count interval : Z) (turn average : fval).
    (* "Revolution count; interval: ..; turn speed: ..; average speed: .." *)

Record World : Type := mkWorld {
  adc_in : list Z;       (* coming results of analogRead(SENSE_PIN) *)
  pin_in : list bool;    (* coming results of digitalRead(CALIB_PIN) *)
  clock_in : list Z;     (* coming results of millis() *)
  serial : list Output   (* lines printed so far, oldest first *)
}.

(** ** A state monad over globals and hardware *)

Definition St : Type := (Sketch * World)%type.
Definition M (A : Type) : Type := St -> option (A * St).

Definition ret {A} (a : A) : M A := fun s => Some (a, s).

Definition bind {A B} (c : M A) (k : A -> M B) : M B :=
  fun s => match c s with
           | Some (a, s') => k a s'
           | None => None
           end.

Definition blocked {A} : M A := fun _ => None.

Notation "x <- c ;; k" := (bind c (fun x => k))
  (at level 61, c at next level, right associativity).
Notation "c ;;; k" := (bind c (fun _ => k))
  (at level 61, right associativity).

Definition globals : M Sketch := fun s => Some (fst s, s).

Definition modify (f : Sketch -> Sketch) : M unit :=
  fun s => Some (tt, (f (fst s), snd s)).

Definition analogRead : M Z :=
  fun s => match adc_in (snd s) with
           | [] => None
           | v :: rest =>
               Some (v, (fst s, mkWorld rest (pin_in (snd s))
                                        (clock_in (snd s)) (serial (snd s))))
           end.

Definition digitalRead : M bool :=
  fun s => match pin_in (snd s) with
           | [] => None
           | v :: rest =>
               Some (v, (fst s, mkWorld (adc_in (snd s)) rest
                                        (clock_in (snd s)) (serial (snd s))))
           end.

Definition millis : M Z :=
  fun s => match clock_in (snd s) with
           | [] => None
           | v :: rest =>
               Some (v, (fst s, mkWorld (adc_in (snd s)) (pin_in (snd s))
                                        rest (serial (snd s))))
           end.

Definition Serial_print (o : Output) : M unit :=
  fun s => Some (tt, (fst s, mkWorld (adc_in (snd s)) (pin_in (snd s))
                                     (clock_in (snd s)) (serial (snd s) ++ [o]))).

(** ** The sketch *)

(** Determine the boolean state for the ADC value of the sensor.  The
    global [adcState] is read, never written. *)
Definition getAdcBoolean : M bool :=
  adc <- analogRead ;;
  g <- globals ;;
  if adcState g then
    (* current state is ON/HIGH/true *)
    if adc <=? threshold g false then ret false else ret (adcState g)
  else
    (* current state is OFF/LOW/false *)
    if adc >=? threshold g true then ret true else ret (adcState g).

(** Body of [while(digitalRead(CALIB_PIN))]; [newLimit] is declared
    outside the loop and lives across its iterations.  Every iteration
    reads the pin once, so the pin script bounds the recursion. *)
Fixpoint sense_while (fuel : nat) (newLimit : bool) : M unit :=
  match fuel with
  | O => blocked
  | S fuel' =>
      going <- digitalRead ;;
      if going then
        value <- analogRead ;;
        g <- globals ;;
        newLimit <- (if value <? threshold g false
                     then modify (set_threshold false value) ;;; ret true
                     else ret newLimit) ;;
        g <- globals ;;
        newLimit <- (if value >? threshold g true
                     then modify (set_threshold true value) ;;; ret true
                     else ret newLimit) ;;
        (if newLimit then
           g <- globals ;;
           now <- millis ;;
           Serial_print (NewRange (threshold g false) (threshold g true) now)
         else ret tt) ;;;
        sense_while fuel' newLimit
      else ret tt
  end.

Definition getActiveSenseRange : M unit :=
  modify (set_threshold false MAX_ADC) ;;;
  modify (set_threshold true MIN_ADC) ;;;
  fun s => sense_while (S (length (pin_in (snd s)))) false s.

(** The three locals of [calibrateBooleanSense], from the range held in
    [threshold[false]], [threshold[true]]. *)
Definition median (lo hi : Z) : Z := uint (uint (lo + hi) / 2).
Definition extent (lo hi : Z) : Z := uint (hi - lo).
Definition halfBand (lo hi : Z) : Z :=
  float_to_uint (Arduino.min (inject_Z (extent lo hi) * DEAD_BAND_FACTOR)
                             (inject_Z FIXED_DEAD_BAND)).

(** The routine overwrites the observed range with the thresholds. *)
Definition calibrateBooleanSense : M unit :=
  g <- globals ;;
  let median := median (threshold g false) (threshold g true) in
  let halfBand := halfBand (threshold g false) (threshold g true) in
  modify (set_threshold false (uint (median - halfBand))) ;;;
  modify (set_threshold true (uint (median + halfBand))).

(** [while(getAdcBoolean()) {}] for [while_state = true] and
    [while(!getAdcBoolean()) {}] for [while_state = false]: poll as long
    as the detector answers [while_state].  Every iteration reads one
    sample. *)
Fixpoint poll_while (while_state : bool) (fuel : nat) : M unit :=
  match fuel with
  | O => blocked
  | S fuel' =>
      b <- getAdcBoolean ;;
      if Bool.eqb b while_state then poll_while while_state fuel' else ret tt
  end.

Definition poll (while_state : bool) : M unit :=
  fun s => poll_while while_state (S (length (adc_in (snd s)))) s.

Definition synchronizeToRotation : M Z :=
  poll true ;;;    (* Wait until the state goes low (light not blocked) *)
  poll false ;;;   (* Wait until the light is blocked *)
  millis.

Definition setup : M unit :=
  getActiveSenseRange ;;;
  calibrateBooleanSense ;;;
  t <- synchronizeToRotation ;;
  modify (set_startTime t) ;;;
  g <- globals ;;
  modify (set_revolutionStart (startTime g)).

Definition loop : M unit :=
  senseState <- getAdcBoolean ;;
  g <- globals ;;
  (if adcState g && negb senseState then
     (* The ADC reading just went from HIGH to LOW *)
     revolutionEnd <- millis ;;
     modify (set_revolutions (uint (revolutions g + 1))) ;;;
     g <- globals ;;
     let revolutionInterval := ulong (revolutionEnd - revolutionStart g) in
     let totalInterval := ulong (revolutionEnd - startTime g) in
     let revSpeed := fdiv 1000 (inject_Z revolutionInterval) in
     let averageSpeed :=
       fdiv (inject_Z (revolutions g) * 1000) (inject_Z totalInterval) in
     Serial_print (Revolution (revolutions g) revolutionInterval
                              revSpeed averageSpeed) ;;;
     modify (set_revolutionStart revolutionEnd)
   else ret tt) ;;;
  modify (set_adcState senseState).

(** [n] iterations of [loop]. *)
Fixpoint loops (n : nat) : M unit :=
  match n with
  | O => ret tt
  | S n' => loop ;;; loops n'
  end.

(** The ino file's [setup()] followed by [n] calls of [loop()]. *)
Definition sketch (n : nat) : M unit := setup ;;; loops n.

Definition boot (w : World) : St := (initial, w).

(** ** Vocabulary of the statements *)

(** The pair [calibrateBooleanSense] stores for a range [(lo, hi)]. *)
Definition derived (lo hi : Z) : Z * Z :=
  (uint (median lo hi - halfBand lo hi), uint (median lo hi + halfBand lo hi)).

(** The globals with [threshold[]] holding the pair [p]. *)
Definition with_thresholds (p : Z * Z) (g : Sketch) : Sketch :=
  set_threshold true (snd p) (set_threshold false (fst p) g).

(** What [getAdcBoolean] answers for the sample [adc] under globals [g]. *)
Definition answer (g : Sketch) (adc : Z) : bool :=
  if adcState g then negb (adc <=? threshold g false)
  else adc >=? threshold g true.

(** The two bound updates of one iteration on the sample [v]. *)
Definition widen (v : Z) (g : Sketch) : Sketch :=
  let g1 := if v <? threshold g false then set_threshold false v g else g in
  if v >? threshold g1 true then set_threshold true v g1 else g1.

(** Whether the sample [v] moves a bound. *)
Definition moves (v : Z) (g : Sketch) : bool :=
  (v <? threshold g false) || (v >? threshold g true).

(** A sample inside the ADC domain. *)
Definition raw (v : Z) : Prop := MIN_ADC <= v <= MAX_ADC.

(** A range with its bounds in order, inside the ADC domain. *)
Definition ordered (g : Sketch) : Prop :=
  MIN_ADC <= threshold g false /\
  threshold g false <= threshold g true /\
  threshold g true <= MAX_ADC.

(** What range sampling can hand to the calibrator: the untouched
    inverted extremes, or an ordered range. *)
Definition deliverable (g : Sketch) : Prop :=
  (threshold g false = MAX_ADC /\ threshold g true = MIN_ADC) \/ ordered g.

(** A scripted run of the whole sketch: two calibration samples 100 and
    900, the trigger closed at the third poll, synchronisation on the
    samples 450 then 600 at clock reading 1000, then four iterations of
    [loop] with falling edges at 1500 and 2700. *)
Definition bench : World :=
  mkWorld [100; 900; 450; 600; 600; 450; 600; 450]
          [true; true; false]
          [1; 2; 1000; 1500; 2700]
          [].

(** The [bench] script with the second falling edge in the same
    millisecond as the first. *)
Definition bench_same_ms : World :=
  mkWorld [100; 900; 450; 600; 600; 450; 600; 450]
          [true; true; false]
          [1; 2; 1000; 1500; 1500]
          [].

(** The lines range sampling prints for the samples [vs] read at the
    clock readings [ts], starting from the bounds [lo], [hi]: each line
    shows the bounds as they stand after its sample. *)
Fixpoint range_lines (lo hi : Z) (vs ts : list Z) : list Output :=
  match vs, ts with
  | v :: vs', t :: ts' =>
      NewRange (Z.min v lo) (Z.max v hi) t
        :: range_lines (Z.min v lo) (Z.max v hi) vs' ts'
  | _, _ => []
  end.

(** How many of the samples [vs] reach the high threshold of [g]. *)
Definition reaching_high (g : Sketch) (vs : list Z) : nat :=
  length (filter (fun s => s >=? threshold g true) vs).

(** The intervals of the revolution lines among [lines], summed. *)
Fixpoint interval_sum (lines : list Output) : Z :=
  match lines with
  | [] => 0
  | Revolution _ interval _ _ :: rest => interval + interval_sum rest
  | NewRange _ _ _ :: rest => interval_sum rest
  end.

(** * Properties *)

(** ** Machine arithmetic on values that fit *)

Lemma uint_small (z : Z) : 0 <= z < 65536 -> uint z = z.
Proof. intros H. unfold uint. now apply Z.mod_small. Qed.

Lemma ulong_small (z : Z) : 0 <= z < 4294967296 -> ulong z = z.
Proof. intros H. unfold ulong. now apply Z.mod_small. Qed.

Lemma uint_range (z : Z) : 0 <= uint z < 65536.
Proof. unfold uint. apply Z.mod_pos_bound. lia. Qed.

(** The float product [e * DEAD_BAND_FACTOR], capped by the macro and
    converted back to [unsigned int], is the integer quotient [e / 4]
    capped at 40. *)
Lemma dead_band_trunc (e : Z) :
  0 <= e < 65536 ->
  float_to_uint (Arduino.min (inject_Z e * DEAD_BAND_FACTOR)
                             (inject_Z FIXED_DEAD_BAND))
  = Z.min (e / 4) 40.
Proof.
  intros He.
  unfold Arduino.min, Qlt_bool, Qle_bool, float_to_uint,
    DEAD_BAND_FACTOR, FIXED_DEAD_BAND.
  cbn [inject_Z Qmult Qnum Qden Pos.mul].
  destruct (Z.leb_spec (40 * 100) (e * 25 * 1)) as [Hcap | Hlin]; cbn [negb].
  - cbn [inject_Z Qnum Qden]. rewrite Z.quot_1_r.
    assert (40 <= e / 4) by (apply Z.div_le_lower_bound; lia).
    rewrite uint_small by lia. lia.
  - cbn [inject_Z Qmult Qnum Qden Pos.mul].
    rewrite Z.quot_div_nonneg by lia.
    change 100 with (4 * 25).
    rewrite Z.div_mul_cancel_r by lia.
    assert (0 <= e / 4 < 40)
      by (split; [apply Z.div_pos; lia | apply Z.div_lt_upper_bound; lia]).
    rewrite uint_small by lia. lia.
Qed.

(** The same value, read as the floor of the rational minimum. *)
Lemma dead_band_floor (e : Z) :
  Z.min (e / 4) 40
  = Qfloor (Qmin (inject_Z e * DEAD_BAND_FACTOR) (inject_Z FIXED_DEAD_BAND)).
Proof.
  unfold DEAD_BAND_FACTOR, FIXED_DEAD_BAND.
  destruct (Z.le_gt_cases 160 e) as [Hcap | Hlin].
  - rewrite Q.min_r.
    + rewrite Qfloor_Z. assert (40 <= e / 4) by (apply Z.div_le_lower_bound; lia). lia.
    + unfold Qle. cbn. lia.
  - rewrite Q.min_l.
    + unfold Qfloor. cbn [inject_Z Qmult Qnum Qden Pos.mul].
      change (Z.pos 100) with (4 * 25). rewrite Z.div_mul_cancel_r by lia.
      assert (e / 4 < 40) by (apply Z.div_lt_upper_bound; lia). lia.
    + unfold Qle. cbn. lia.
Qed.

Section OrderedRange.

(** An observed range inside the ADC domain, low bound first. *)
Variables lo hi : Z.
Hypothesis Hdom : MIN_ADC <= lo /\ lo <= hi /\ hi <= MAX_ADC.

Lemma median_exact : median lo hi = (lo + hi) / 2.
Proof.
  unfold MIN_ADC, MAX_ADC in Hdom. unfold median.
  rewrite (uint_small (lo + hi)) by lia.
  assert (0 <= (lo + hi) / 2 <= 1023).
  { split; [apply Z.div_pos; lia | apply Z.div_le_upper_bound; lia]. }
  apply uint_small. lia.
Qed.

Lemma extent_exact : extent lo hi = hi - lo.
Proof.
  unfold MIN_ADC, MAX_ADC in Hdom. unfold extent. apply uint_small. lia.
Qed.

Lemma halfBand_exact : halfBand lo hi = Z.min ((hi - lo) / 4) 40.
Proof.
  unfold MIN_ADC, MAX_ADC in Hdom. unfold halfBand.
  rewrite extent_exact. apply dead_band_trunc. lia.
Qed.

Lemma median_bounds : lo <= median lo hi <= hi.
Proof.
  unfold MIN_ADC, MAX_ADC in Hdom. rewrite median_exact.
  split; [apply Z.div_le_lower_bound | apply Z.div_le_upper_bound]; lia.
Qed.

Lemma halfBand_bounds :
  0 <= halfBand lo hi /\
  halfBand lo hi <= median lo hi - lo /\
  median lo hi + halfBand lo hi <= hi.
Proof.
  unfold MIN_ADC, MAX_ADC in Hdom.
  rewrite halfBand_exact, median_exact.
  pose proof (Z.div_mod (hi - lo) 4 ltac:(lia)) as Hq.
  pose proof (Z.mod_pos_bound (hi - lo) 4 ltac:(lia)) as Hr.
  pose proof (Z.div_mod (lo + hi) 2 ltac:(lia)) as Hm.
  pose proof (Z.mod_pos_bound (lo + hi) 2 ltac:(lia)) as Hs.
  lia.
Qed.

End OrderedRange.

(** ** Threshold derivation *)

(** The routine always returns; it reads the range, writes the pair over
    it and touches nothing else. *)
Lemma calibrateBooleanSense_run (g : Sketch) (w : World) :
  calibrateBooleanSense (g, w)
  = Some (tt, (with_thresholds (derived (threshold g false) (threshold g true)) g, w)).
Proof. reflexivity. Qed.

Lemma threshold_with_thresholds (p : Z * Z) (g : Sketch) (b : bool) :
  threshold (with_thresholds p g) b = if b then snd p else fst p.
Proof. destruct b; reflexivity. Qed.

Lemma derived_exact (lo hi : Z) :
  MIN_ADC <= lo /\ lo <= hi /\ hi <= MAX_ADC ->
  derived lo hi = (median lo hi - halfBand lo hi, median lo hi + halfBand lo hi).
Proof.
  intros Hdom.
  pose proof (median_bounds lo hi Hdom).
  pose proof (halfBand_bounds lo hi Hdom).
  unfold MIN_ADC, MAX_ADC in Hdom. unfold derived.
  rewrite !uint_small by lia. reflexivity.
Qed.

(** C10. For every observed range with 0 <= lowObserved <= highObserved
    <= 1023 the thresholds stored by [calibrateBooleanSense] satisfy
    0 <= lowThreshold <= highThreshold <= 1023: neither [median - halfBand]
    nor [median + halfBand] wraps, because
    halfBand <= min(extent / 4, 40) <= median and
    median + halfBand <= highObserved. *)
Theorem calibrate_thresholds_in_domain (g : Sketch) (w : World) :
  MIN_ADC <= threshold g false ->
  threshold g false <= threshold g true ->
  threshold g true <= MAX_ADC ->
  let lo := threshold g false in
  let hi := threshold g true in
  exists g',
    calibrateBooleanSense (g, w) = Some (tt, (g', w)) /\
    threshold g' false = median lo hi - halfBand lo hi /\
    threshold g' true = median lo hi + halfBand lo hi /\
    MIN_ADC <= threshold g' false /\
    threshold g' false <= threshold g' true /\
    threshold g' true <= MAX_ADC /\
    halfBand lo hi <= Z.min (extent lo hi / 4) 40 /\
    Z.min (extent lo hi / 4) 40 <= median lo hi /\
    median lo hi + halfBand lo hi <= hi.
Proof.
  intros H0 H1 H2 lo hi.
  assert (Hdom : MIN_ADC <= lo /\ lo <= hi /\ hi <= MAX_ADC) by (subst lo hi; auto).
  pose proof (median_bounds lo hi Hdom) as Hm.
  pose proof (halfBand_bounds lo hi Hdom) as Hh.
  pose proof (halfBand_exact lo hi Hdom) as Hhe.
  pose proof (extent_exact lo hi Hdom) as Hee.
  eexists. split; [apply calibrateBooleanSense_run |].
  rewrite !threshold_with_thresholds. fold lo hi.
  rewrite (derived_exact lo hi Hdom). cbn [fst snd].
  unfold MIN_ADC, MAX_ADC in *. rewrite Hee. lia.
Qed.

Lemma calibrate_thresholds_in_domain_witness :
  let g := with_thresholds (100, 900) initial in
  exists g',
    calibrateBooleanSense (g, mkWorld [] [] [] []) = Some (tt, (g', mkWorld [] [] [] [])) /\
    MIN_ADC <= threshold g' false /\
    threshold g' false <= threshold g' true /\
    threshold g' true <= MAX_ADC.
Proof.
  intros g.
  destruct (calibrate_thresholds_in_domain g (mkWorld [] [] [] []))
    as [g' [Hrun [_ [_ [Hlo [Hord [Hhi _]]]]]]].
  - unfold MIN_ADC; simpl; lia.
  - simpl; lia.
  - unfold MAX_ADC; simpl; lia.
  - exists g'. auto.
Defined.

(** C2, the statement of the specification fails: the range (100, 101) has high > low, yet
    the float product 1 * 0.25 is cut to 0 when stored in [halfBand], so
    both thresholds equal the median and halfBand is not the rational
    minimum. *)
Lemma calibrate_narrow_range_counterexample :
  let g := with_thresholds (100, 101) initial in
  let w := mkWorld [] [] [] [] in
  100 < 101 /\
  exists g',
    calibrateBooleanSense (g, w) = Some (tt, (g', w)) /\
    median 100 101 = 100 /\
    threshold g' false = 100 /\
    threshold g' true = 100 /\
    ~ (threshold g' false < median 100 101 < threshold g' true) /\
    ~ (inject_Z (halfBand 100 101)
       == Qmin (inject_Z (extent 100 101) * DEAD_BAND_FACTOR)
               (inject_Z FIXED_DEAD_BAND))%Q.
Proof.
  intros g w. split; [lia |].
  eexists. split; [apply calibrateBooleanSense_run |].
  repeat split; try reflexivity.
  - vm_compute. intros [H _]. discriminate H.
  - vm_compute. discriminate.
Qed.

(** C2, amended.  For every observed range 0 <= low < high <= 1023,
    [calibrateBooleanSense] computes median = (low + high) / 2 rounded
    down, extent = high - low and halfBand = floor(min(extent * 0.25, 40)),
    and stores lowThreshold = median - halfBand <= median <=
    median + halfBand = highThreshold; both inequalities are strict as
    soon as high - low >= 4.  The range (100, 900) gives median 500,
    extent 800, halfBand 40 and thresholds (460, 540). *)
Theorem calibrate_median_band :
  (forall (g : Sketch) (w : World),
     let lo := threshold g false in
     let hi := threshold g true in
     MIN_ADC <= lo -> lo < hi -> hi <= MAX_ADC ->
     exists g',
       calibrateBooleanSense (g, w) = Some (tt, (g', w)) /\
       median lo hi = (lo + hi) / 2 /\
       extent lo hi = hi - lo /\
       halfBand lo hi
         = Qfloor (Qmin (inject_Z (extent lo hi) * DEAD_BAND_FACTOR)
                        (inject_Z FIXED_DEAD_BAND)) /\
       threshold g' false = median lo hi - halfBand lo hi /\
       threshold g' true = median lo hi + halfBand lo hi /\
       threshold g' false <= median lo hi <= threshold g' true /\
       (4 <= hi - lo -> threshold g' false < median lo hi < threshold g' true))
  /\
  (let g := with_thresholds (100, 900) initial in
   let w := mkWorld [] [] [] [] in
   median 100 900 = 500 /\ extent 100 900 = 800 /\ halfBand 100 900 = 40 /\
   calibrateBooleanSense (g, w) = Some (tt, (with_thresholds (460, 540) g, w))).
Proof.
  split.
  - intros g w lo hi H0 H1 H2.
    assert (Hdom : MIN_ADC <= lo /\ lo <= hi /\ hi <= MAX_ADC) by lia.
    pose proof (halfBand_bounds lo hi Hdom) as Hh.
    pose proof (halfBand_exact lo hi Hdom) as Hhe.
    pose proof (extent_exact lo hi Hdom) as Hee.
    eexists. split; [apply calibrateBooleanSense_run |].
    rewrite !threshold_with_thresholds. fold lo hi.
    rewrite (derived_exact lo hi Hdom). cbn [fst snd].
    repeat split; try lia.
    + apply median_exact; exact Hdom.
    + rewrite Hee, <- dead_band_floor. exact Hhe.
    + assert (1 <= (hi - lo) / 4) by (apply Z.div_le_lower_bound; lia). lia.
    + assert (1 <= (hi - lo) / 4) by (apply Z.div_le_lower_bound; lia). lia.
  - repeat split.
Qed.

Lemma calibrate_median_band_witness :
  let g := with_thresholds (100, 900) initial in
  let w := mkWorld [] [] [] [] in
  exists g',
    calibrateBooleanSense (g, w) = Some (tt, (g', w)) /\
    threshold g' false < median 100 900 < threshold g' true.
Proof.
  intros g w.
  destruct (proj1 calibrate_median_band g w)
    as [g' [Hrun [_ [_ [_ [_ [_ [_ Hstrict]]]]]]]].
  - unfold MIN_ADC; simpl; lia.
  - simpl; lia.
  - unfold MAX_ADC; simpl; lia.
  - exists g'. split; [exact Hrun | apply Hstrict; simpl; lia].
Defined.

(** C7, the statement of the specification fails: the routine is not free of side effects,
    it overwrites the range it reads.  Invoked twice from the range
    (100, 900), the second call starts from the pair (460, 540) left by
    the first and narrows it to (480, 520). *)
Lemma calibrate_twice_counterexample :
  let g := with_thresholds (100, 900) initial in
  let w := mkWorld [] [] [] [] in
  exists g1 g2,
    calibrateBooleanSense (g, w) = Some (tt, (g1, w)) /\
    calibrateBooleanSense (g1, w) = Some (tt, (g2, w)) /\
    (threshold g1 false, threshold g1 true) = (460, 540) /\
    (threshold g2 false, threshold g2 true) = (480, 520) /\
    g1 <> g /\ g2 <> g1.
Proof.
  intros g w. do 2 eexists.
  split; [apply calibrateBooleanSense_run |].
  split; [apply calibrateBooleanSense_run |].
  repeat split; vm_compute; discriminate.
Qed.

(** C7, amended.  [calibrateBooleanSense] always returns, prints nothing,
    reads no input, and leaves every global but [threshold[]] alone; the
    pair it stores depends on the range found in [threshold[]] only, so
    equal ranges give equal pairs.  The range itself is overwritten, so a
    second invocation derives its pair from the first pair:
    (100, 900) gives (460, 540), and a second call gives (480, 520). *)
Theorem calibrate_function_of_range :
  (forall (g : Sketch) (w : World),
     exists g',
       calibrateBooleanSense (g, w) = Some (tt, (g', w)) /\
       (threshold g' false, threshold g' true)
         = derived (threshold g false) (threshold g true) /\
       adcState g' = adcState g /\
       startTime g' = startTime g /\
       revolutionStart g' = revolutionStart g /\
       revolutions g' = revolutions g)
  /\
  (forall (g1 g2 g1' g2' : Sketch) (w1 w2 w1' w2' : World),
     threshold g1 false = threshold g2 false ->
     threshold g1 true = threshold g2 true ->
     calibrateBooleanSense (g1, w1) = Some (tt, (g1', w1')) ->
     calibrateBooleanSense (g2, w2) = Some (tt, (g2', w2')) ->
     threshold g1' false = threshold g2' false /\
     threshold g1' true = threshold g2' true)
  /\
  (forall (g g1 g2 : Sketch) (w w1 w2 : World),
     calibrateBooleanSense (g, w) = Some (tt, (g1, w1)) ->
     calibrateBooleanSense (g1, w1) = Some (tt, (g2, w2)) ->
     (threshold g2 false, threshold g2 true)
       = derived (threshold g1 false) (threshold g1 true))
  /\
  derived 100 900 = (460, 540) /\ derived 460 540 = (480, 520).
Proof.
  split; [| split; [| split; [| split; reflexivity]]].
  - intros g w. eexists. split; [apply calibrateBooleanSense_run |].
    repeat split.
  - intros g1 g2 g1' g2' w1 w2 w1' w2' Hlo Hhi R1 R2.
    rewrite calibrateBooleanSense_run in R1, R2.
    injection R1 as <- _. injection R2 as <- _.
    cbn [threshold] in Hlo, Hhi.
    rewrite !threshold_with_thresholds, Hlo, Hhi. split; reflexivity.
  - intros g g1 g2 w w1 w2 _ R2.
    rewrite calibrateBooleanSense_run in R2. injection R2 as <- _.
    reflexivity.
Qed.

Lemma calibrate_function_of_range_witness :
  let g1 := with_thresholds (100, 900) initial in
  let g2 := set_adcState LOW (with_thresholds (100, 900) initial) in
  let w := mkWorld [] [] [] [] in
  threshold (with_thresholds (460, 540) g1) false
    = threshold (with_thresholds (460, 540) g2) false /\
  threshold (with_thresholds (460, 540) g1) true
    = threshold (with_thresholds (460, 540) g2) true.
Proof.
  intros g1 g2 w.
  apply (proj1 (proj2 calibrate_function_of_range)
           g1 g2 _ _ w w w w); reflexivity.
Defined.

(** ** Range sampling delivers an ordered range or none *)

(** C9, the statement of the specification fails: with the trigger LOW at entry
    [getActiveSenseRange] leaves the range (1023, 0); there
    extent = 0 - 1023 wraps around to 64513, which is neither <= 0 nor
    inside [0, 1023], and halfBand is 40, not a zero-width band. *)
Lemma calibrate_inverted_range_counterexample :
  let w := mkWorld [] [false] [] [] in
  exists g,
    getActiveSenseRange (boot w) = Some (tt, (g, mkWorld [] [] [] [])) /\
    threshold g false = MAX_ADC /\
    threshold g true = MIN_ADC /\
    extent (threshold g false) (threshold g true) = 64513 /\
    ~ (extent (threshold g false) (threshold g true) <= 0) /\
    ~ (MIN_ADC <= extent (threshold g false) (threshold g true) <= MAX_ADC) /\
    halfBand (threshold g false) (threshold g true) = 40.
Proof.
  intros w. eexists. split; [reflexivity |].
  repeat split; try reflexivity;
    change (extent _ _) with 64513; unfold MIN_ADC, MAX_ADC; lia.
Qed.

(** C9, amended.  For every observed range with 0 <= low <= high <= 1023
    each arithmetic step of [calibrateBooleanSense] (median, extent,
    halfBand, median - halfBand, median + halfBand) equals its
    mathematical value and lies in [0, 1023]: nothing wraps.  For the
    inverted-extreme range (1023, 0) the subtraction wraps: median is
    511, extent is 64513, halfBand is 40 and the thresholds are
    (471, 551). *)
Theorem calibrate_steps_in_domain :
  (forall lo hi : Z,
     MIN_ADC <= lo -> lo <= hi -> hi <= MAX_ADC ->
     let inside (z : Z) := MIN_ADC <= z <= MAX_ADC in
     (median lo hi = (lo + hi) / 2 /\ inside (median lo hi)) /\
     (extent lo hi = hi - lo /\ inside (extent lo hi)) /\
     (halfBand lo hi = Z.min ((hi - lo) / 4) 40 /\ inside (halfBand lo hi)) /\
     (derived lo hi = (median lo hi - halfBand lo hi,
                       median lo hi + halfBand lo hi) /\
      inside (fst (derived lo hi)) /\ inside (snd (derived lo hi))))
  /\
  (median MAX_ADC MIN_ADC = 511 /\
   extent MAX_ADC MIN_ADC = 64513 /\
   halfBand MAX_ADC MIN_ADC = 40 /\
   derived MAX_ADC MIN_ADC = (471, 551)).
Proof.
  split; [| repeat split].
  intros lo hi H0 H1 H2 inside.
  assert (Hdom : MIN_ADC <= lo /\ lo <= hi /\ hi <= MAX_ADC) by auto.
  pose proof (median_bounds lo hi Hdom) as Hm.
  pose proof (halfBand_bounds lo hi Hdom) as Hh.
  rewrite (derived_exact lo hi Hdom). cbn [fst snd].
  rewrite <- (extent_exact lo hi Hdom) at 1.
  subst inside. cbn beta.
  rewrite (extent_exact lo hi Hdom).
  repeat split;
    try apply (median_exact lo hi Hdom);
    try apply (halfBand_exact lo hi Hdom);
    unfold MIN_ADC, MAX_ADC in *; lia.
Qed.

Lemma calibrate_steps_in_domain_witness :
  derived 100 900 = (median 100 900 - halfBand 100 900,
                     median 100 900 + halfBand 100 900).
Proof.
  apply (proj1 calibrate_steps_in_domain 100 900);
    unfold MIN_ADC, MAX_ADC; lia.
Defined.

(** ** The hysteresis detector *)

(** One call reads one sample, answers, and hands the globals back as
    they were. *)
Lemma getAdcBoolean_run (g : Sketch) (s : Z) (rest : list Z)
      (pins : list bool) (clk : list Z) (out : list Output) :
  getAdcBoolean (g, mkWorld (s :: rest) pins clk out)
  = Some (answer g s, (g, mkWorld rest pins clk out)).
Proof.
  unfold getAdcBoolean, answer, bind, analogRead, globals, ret. cbn.
  destruct (adcState g) eqn:E; cbn.
  - destruct (s <=? _); reflexivity.
  - destruct (s >=? _); reflexivity.
Qed.

Lemma getAdcBoolean_blocked (g : Sketch)
      (pins : list bool) (clk : list Z) (out : list Output) :
  getAdcBoolean (g, mkWorld [] pins clk out) = None.
Proof. reflexivity. Qed.

(** C1. One invocation of [getAdcBoolean] on the sample [s] returns
    false when the previous state is HIGH and s <= lowThreshold, true when
    the previous state is LOW and s >= highThreshold, and the previous
    state in every other case; in particular for lowThreshold < s <
    highThreshold.  (The order of the two thresholds plays no part.) *)
Theorem getAdcBoolean_hysteresis (g : Sketch) (s : Z) (rest : list Z)
        (pins : list bool) (clk : list Z) (out : list Output) :
  let lowThreshold := threshold g false in
  let highThreshold := threshold g true in
  exists state,
    getAdcBoolean (g, mkWorld (s :: rest) pins clk out)
      = Some (state, (g, mkWorld rest pins clk out)) /\
    (adcState g = HIGH -> s <= lowThreshold -> state = false) /\
    (adcState g = LOW -> s >= highThreshold -> state = true) /\
    (~ (adcState g = HIGH /\ s <= lowThreshold) ->
     ~ (adcState g = LOW /\ s >= highThreshold) ->
     state = adcState g) /\
    (lowThreshold < s < highThreshold -> state = adcState g).
Proof.
  intros lo hi. exists (answer g s).
  split; [apply getAdcBoolean_run |].
  subst lo hi. unfold answer, HIGH, LOW. cbn [threshold].
  destruct (adcState g);
    destruct (Z.leb_spec s (threshold_false g));
    destruct (Z.geb_spec s (threshold_true g)); cbn;
    repeat split; intros; try reflexivity; try discriminate; try lia;
    exfalso; intuition (try discriminate; lia).
Qed.

Lemma getAdcBoolean_hysteresis_witness :
  let g := with_thresholds (460, 540) initial in
  exists state,
    getAdcBoolean (g, mkWorld [450] [] [] []) = Some (state, (g, mkWorld [] [] [] [])) /\
    state = false.
Proof.
  intros g.
  destruct (getAdcBoolean_hysteresis g 450 [] [] [] [])
    as [state [Hrun [Hfall _]]].
  exists state. split; [exact Hrun |].
  apply Hfall; [reflexivity | simpl; lia].
Defined.

(** The section 8 scenario of the specification: from HIGH with
    thresholds (460, 540), the samples 600, 500, 450 are answered HIGH,
    HIGH, LOW. *)
Example detector_scenario :
  let g := with_thresholds (460, 540) initial in
  map (answer g) [600; 500; 450] = [HIGH; HIGH; LOW].
Proof. reflexivity. Qed.

(** ** The revolution timer *)

(** An iteration that sees no falling edge only stores the answer. *)
Lemma loop_no_edge (g : Sketch) (s : Z) (rest : list Z)
      (pins : list bool) (clk : list Z) (out : list Output) :
  adcState g && negb (answer g s) = false ->
  loop (g, mkWorld (s :: rest) pins clk out)
  = Some (tt, (set_adcState (answer g s) g, mkWorld rest pins clk out)).
Proof.
  intros Hno. unfold loop, bind at 1.
  rewrite getAdcBoolean_run. unfold bind, globals. cbn [fst snd].
  rewrite Hno. reflexivity.
Qed.

(** An iteration that sees a falling edge reads the clock, counts,
    reports and moves the last-edge time. *)
Lemma loop_edge (g : Sketch) (s : Z) (rest : list Z)
      (pins : list bool) (t : Z) (clk : list Z) (out : list Output) :
  adcState g && negb (answer g s) = true ->
  let count := uint (revolutions g + 1) in
  let revolutionInterval := ulong (t - revolutionStart g) in
  let totalInterval := ulong (t - startTime g) in
  loop (g, mkWorld (s :: rest) pins (t :: clk) out)
  = Some (tt,
          (set_adcState (answer g s)
             (set_revolutionStart t (set_revolutions count g)),
           mkWorld rest pins clk
             (out ++ [Revolution count revolutionInterval
                        (fdiv 1000 (inject_Z revolutionInterval))
                        (fdiv (inject_Z count * 1000)
                              (inject_Z totalInterval))]))).
Proof.
  intros Hedge. unfold loop, bind at 1.
  rewrite getAdcBoolean_run. unfold bind, globals. cbn [fst snd].
  rewrite Hedge. reflexivity.
Qed.

Lemma loop_edge_blocked (g : Sketch) (s : Z) (rest : list Z)
      (pins : list bool) (out : list Output) :
  adcState g && negb (answer g s) = true ->
  loop (g, mkWorld (s :: rest) pins [] out) = None.
Proof.
  intros Hedge. unfold loop, bind at 1.
  rewrite getAdcBoolean_run. unfold bind, globals. cbn [fst snd].
  rewrite Hedge. reflexivity.
Qed.

(** C3, the statement of the specification fails: [revolutions] is a 16-bit [unsigned int],
    so on the falling edge that follows revolution 65535 the count goes to
    0, it does not increase by 1. *)
Lemma loop_count_wraps_counterexample :
  let g := set_revolutions 65535 (with_thresholds (460, 540) initial) in
  let w := mkWorld [450] [] [5000] [] in
  exists g' w',
    adcState g = HIGH /\ answer g 450 = LOW /\
    loop (g, w) = Some (tt, (g', w')) /\
    revolutions g' = 0 /\
    revolutions g' <> revolutions g + 1.
Proof.
  intros g w. do 2 eexists.
  split; [reflexivity |]. split; [reflexivity |].
  split; [reflexivity |]. split; [reflexivity |].
  cbn. discriminate.
Qed.

(** C3, amended.  An iteration of [loop] counts a revolution exactly when
    the state stored by the previous iteration is HIGH and the state the
    detector answers now is LOW.  On such an edge, with revolutionEnd the
    clock reading: the count becomes (revolutions + 1) modulo 2^16 (so
    revolutions + 1 below 65535), revolutionInterval is
    (revolutionEnd - revolutionStart) modulo 2^32 (the plain difference
    when the clock has not wrapped), instantaneousSpeed is
    1000.0 / revolutionInterval, averageSpeed is
    count * 1000.0 / totalInterval, one line with these four values is
    printed and revolutionStart is set to revolutionEnd.  Without an edge
    nothing is counted, printed or read from the clock.  For edges at
    1000 (synchronisation), 1500 and 2700 the printed intervals are
    500 and 1200, the speeds 2 and 5/6 (0.8333), the averages 2 and
    20/17 (1.1765). *)
Theorem loop_counts_falling_edges :
  (forall (g : Sketch) (s : Z) (rest : list Z)
          (pins : list bool) (clk : list Z) (out : list Output),
     let w := mkWorld (s :: rest) pins clk out in
     exists senseState,
       getAdcBoolean (g, w) = Some (senseState, (g, mkWorld rest pins clk out)) /\
       (adcState g = HIGH -> senseState = LOW ->
        forall (revolutionEnd : Z) (clk' : list Z),
          clk = revolutionEnd :: clk' ->
          let count := uint (revolutions g + 1) in
          let revolutionInterval := ulong (revolutionEnd - revolutionStart g) in
          let totalInterval := ulong (revolutionEnd - startTime g) in
          let revSpeed := fdiv 1000 (inject_Z revolutionInterval) in
          let averageSpeed :=
            fdiv (inject_Z count * 1000) (inject_Z totalInterval) in
          exists g',
            loop (g, w)
              = Some (tt, (g', mkWorld rest pins clk'
                                 (out ++ [Revolution count revolutionInterval
                                            revSpeed averageSpeed]))) /\
            revolutions g' = count /\
            revolutionStart g' = revolutionEnd /\
            startTime g' = startTime g /\
            adcState g' = LOW /\
            threshold g' false = threshold g false /\
            threshold g' true = threshold g true /\
            (0 <= revolutions g < 65535 -> count = revolutions g + 1) /\
            (0 <= revolutionStart g <= revolutionEnd ->
             revolutionEnd < 4294967296 ->
             revolutionInterval = revolutionEnd - revolutionStart g) /\
            (0 <= startTime g <= revolutionEnd ->
             revolutionEnd < 4294967296 ->
             totalInterval = revolutionEnd - startTime g)) /\
       (adcState g = LOW \/ senseState = HIGH ->
        loop (g, w)
          = Some (tt, (set_adcState senseState g, mkWorld rest pins clk out))))
  /\
  (exists g,
     sketch 4 (boot bench) = Some (tt, (g, mkWorld [] [] []
       [NewRange 100 100 1; NewRange 100 900 2;
        Revolution 1 500 (FNum 2) (FNum 2);
        Revolution 2 1200 (FNum (5 # 6)) (FNum (20 # 17))])) /\
     startTime g = 1000 /\ revolutions g = 2 /\ revolutionStart g = 2700)
  /\
  (Qabs ((5 # 6) - (8333 # 10000)) < 5 # 100000)%Q /\
  (Qabs ((20 # 17) - (11765 # 10000)) < 5 # 100000)%Q.
Proof.
  split; [| split; [| split; reflexivity]].
  - intros g s rest pins clk out w. exists (answer g s).
    split; [apply getAdcBoolean_run |]. split.
    + intros Hprev Hnow t clk' -> count revolutionInterval totalInterval
             revSpeed averageSpeed.
      assert (Hedge : adcState g && negb (answer g s) = true)
        by (rewrite Hprev, Hnow; reflexivity).
      eexists. split; [apply (loop_edge g s rest pins t clk' out Hedge) |].
      rewrite Hnow.
      cbn [set_adcState set_revolutionStart set_revolutions threshold
           revolutions revolutionStart startTime adcState
           threshold_false threshold_true].
      repeat split.
      * intros Hc. subst count. apply uint_small. lia.
      * intros Hs Ht. subst revolutionInterval. apply ulong_small. lia.
      * intros Hs Ht. subst totalInterval. apply ulong_small. lia.
    + intros Hno. apply loop_no_edge.
      destruct Hno as [-> | ->]; [reflexivity | apply andb_false_r].
  - eexists. split; [vm_compute; reflexivity |]. repeat split.
Qed.

Lemma loop_counts_falling_edges_witness :
  let g := set_revolutionStart 1000 (set_startTime 1000
             (with_thresholds (460, 540) initial)) in
  exists g',
    loop (g, mkWorld [450] [] [1500] [])
      = Some (tt, (g', mkWorld [] [] []
                         [Revolution 1 500 (FNum 2) (FNum 2)])) /\
    revolutions g' = 1.
Proof.
  intros g.
  destruct (proj1 loop_counts_falling_edges g 450 [] [] [1500] [])
    as [senseState [Hrun [Hedge _]]].
  assert (Hlow : senseState = LOW).
  { rewrite getAdcBoolean_run in Hrun. injection Hrun as <-. reflexivity. }
  destruct (Hedge eq_refl Hlow 1500 [] eq_refl)
    as [g' [Hloop [Hcount _]]].
  exists g'. split; [exact Hloop | exact Hcount].
Defined.

(** C5, the statement of the specification fails: [getAdcBoolean] returns the new state but
    does not store it.  From HIGH with thresholds (460, 540) the sample
    450 is answered LOW while [adcState] stays HIGH, and the following
    call still decides from HIGH: it answers 470, inside the dead band,
    with HIGH. *)
Lemma detector_keeps_state_counterexample :
  let g := with_thresholds (460, 540) initial in
  let w := mkWorld [450; 470] [] [] [] in
  exists state g' w' state2 s2,
    getAdcBoolean (g, w) = Some (state, (g', w')) /\
    state = LOW /\ adcState g' = HIGH /\ adcState g' <> state /\
    getAdcBoolean (g', w') = Some (state2, s2) /\ state2 = HIGH.
Proof.
  intros g w. do 5 eexists.
  split; [apply getAdcBoolean_run |].
  split; [reflexivity |]. split; [reflexivity |].
  split; [discriminate |].
  split; [apply getAdcBoolean_run | reflexivity].
Qed.

(** C5, amended.  [getAdcBoolean] never changes a global: after a call
    [adcState] is what it was before.  The stored state is updated once
    per iteration of [loop], as its last statement: after an iteration
    [adcState] equals the value the detector returned in that iteration,
    and every other global but the revolution record is untouched, so
    each iteration decides from the state answered in the iteration
    before. *)
Theorem adcState_stored_by_loop :
  (forall (g g' : Sketch) (w w' : World) (state : bool),
     getAdcBoolean (g, w) = Some (state, (g', w')) -> g' = g)
  /\
  (forall (g g' : Sketch) (w w' : World),
     loop (g, w) = Some (tt, (g', w')) ->
     exists state w1,
       getAdcBoolean (g, w) = Some (state, (g, w1)) /\
       adcState g' = state /\
       threshold g' false = threshold g false /\
       threshold g' true = threshold g true).
Proof.
  split.
  - intros g g' [adc pins clk out] w' state Hrun.
    destruct adc as [| s rest]; [discriminate Hrun |].
    rewrite getAdcBoolean_run in Hrun. now injection Hrun as _ <- _.
  - intros g g' [adc pins clk out] w' Hloop.
    destruct adc as [| s rest]; [discriminate Hloop |].
    exists (answer g s), (mkWorld rest pins clk out).
    split; [apply getAdcBoolean_run |].
    destruct (adcState g && negb (answer g s)) eqn:Hedge.
    + destruct clk as [| t clk'].
      * rewrite loop_edge_blocked in Hloop by exact Hedge. discriminate Hloop.
      * rewrite loop_edge in Hloop by exact Hedge.
        injection Hloop as <- _. repeat split.
    + rewrite loop_no_edge in Hloop by exact Hedge.
      injection Hloop as <- _. repeat split.
Qed.

Lemma adcState_stored_by_loop_witness :
  let g := with_thresholds (460, 540) initial in
  exists state w1,
    getAdcBoolean (g, mkWorld [450] [] [1500] []) = Some (state, (g, w1)) /\
    state = LOW.
Proof.
  intros g.
  destruct (proj2 adcState_stored_by_loop g
              (set_adcState LOW (set_revolutionStart 1500 (set_revolutions 1 g)))
              (mkWorld [450] [] [1500] [])
              (mkWorld [] [] [] [Revolution 1 1500 (FNum (2 # 3)) (FNum (2 # 3))])
              eq_refl)
    as [state [w1 [Hrun [Hstored _]]]].
  exists state, w1. split; [exact Hrun | symmetry; exact Hstored].
Defined.

(** Division by a zero interval: no trap, an infinity, or not-a-number
    when the dividend is zero too. *)
Lemma fdiv_count_by_zero (n : Z) :
  0 <= n < 65536 ->
  fdiv (inject_Z n * 1000) (inject_Z 0) = if n =? 0 then FNaN else FInf false.
Proof.
  intros Hn. destruct n as [| p | p]; [reflexivity | reflexivity | lia].
Qed.

(** C8, the statement of the specification fails: there is no guard.  With both falling
    edges at clock reading 1500 the second revolution is reported like any
    other, with interval 0 and an infinite turn speed. *)
Lemma loop_same_ms_counterexample :
  exists g,
    sketch 4 (boot bench_same_ms) = Some (tt, (g, mkWorld [] [] []
      [NewRange 100 100 1; NewRange 100 900 2;
       Revolution 1 500 (FNum 2) (FNum 2);
       Revolution 2 0 (FInf false) (FNum 4)])) /\
    revolutions g = 2.
Proof. eexists. split; [vm_compute; reflexivity | reflexivity]. Qed.

(** C8, amended.  When a falling edge is read at the clock value of the
    previous edge, [loop] computes revolutionInterval = 0 and divides by
    it in floating point: there is no fault, the quotient 1000.0 / 0 is
    +infinity, and the iteration completes as on any edge, printing the
    line with interval 0 and that speed and counting the revolution;
    nothing is skipped or marked invalid.  The average is infinite or
    not-a-number as well when the edge is also at startTime. *)
Theorem loop_same_ms_reports_infinity
        (g : Sketch) (s : Z) (rest : list Z)
        (pins : list bool) (t : Z) (clk : list Z) (out : list Output) :
  adcState g = HIGH ->
  s <= threshold g false ->
  t = revolutionStart g ->
  let count := uint (revolutions g + 1) in
  exists g',
    loop (g, mkWorld (s :: rest) pins (t :: clk) out)
      = Some (tt, (g', mkWorld rest pins clk
                         (out ++ [Revolution count 0 (FInf false)
                                    (fdiv (inject_Z count * 1000)
                                          (inject_Z (ulong (t - startTime g))))]))) /\
    fdiv 1000 (inject_Z (ulong (t - revolutionStart g))) = FInf false /\
    revolutions g' = count /\
    revolutionStart g' = t /\
    adcState g' = LOW /\
    (t = startTime g ->
     fdiv (inject_Z count * 1000) (inject_Z (ulong (t - startTime g)))
       = if count =? 0 then FNaN else FInf false).
Proof.
  intros Hprev Hs Ht count.
  assert (Hnow : answer g s = false).
  { unfold answer. rewrite Hprev. unfold HIGH.
    destruct (Z.leb_spec s (threshold g false)); [reflexivity | lia]. }
  assert (Hedge : adcState g && negb (answer g s) = true)
    by (rewrite Hprev, Hnow; reflexivity).
  assert (Hzero : ulong (t - revolutionStart g) = 0)
    by (rewrite Ht, Z.sub_diag; reflexivity).
  eexists. split.
  - rewrite (loop_edge g s rest pins t clk out Hedge).
    rewrite Hzero. reflexivity.
  - rewrite Hzero, Hnow.
    cbn [set_adcState set_revolutionStart set_revolutions
         revolutions revolutionStart adcState].
    repeat split.
    intros ->. rewrite Z.sub_diag. change (ulong 0) with 0.
    apply fdiv_count_by_zero. apply uint_range.
Qed.

Lemma loop_same_ms_reports_infinity_witness :
  let g := set_revolutions 1 (set_revolutionStart 1500 (set_startTime 1000
             (with_thresholds (460, 540) initial))) in
  exists g',
    loop (g, mkWorld [450] [] [1500] [])
      = Some (tt, (g', mkWorld [] [] []
                         [Revolution 2 0 (FInf false) (FNum 4)])) /\
    revolutions g' = 2.
Proof.
  intros g.
  destruct (loop_same_ms_reports_infinity g 450 [] [] 1500 [] [])
    as [g' [Hloop [_ [Hcount _]]]].
  - reflexivity.
  - simpl; lia.
  - reflexivity.
  - exists g'. split; [exact Hloop | exact Hcount].
Defined.

(** ** Synchronisation *)

(** A polling loop reads on while the detector answers [while_state] and
    stops at the first sample answered otherwise; the globals stay as
    they are throughout. *)
Lemma poll_while_run (while_state : bool) (g : Sketch) (pre : list Z)
      (s : Z) (rest : list Z) (pins : list bool) (clk : list Z)
      (out : list Output) (fuel : nat) :
  Forall (fun x => answer g x = while_state) pre ->
  answer g s = negb while_state ->
  (length pre < fuel)%nat ->
  poll_while while_state fuel (g, mkWorld (pre ++ s :: rest) pins clk out)
  = Some (tt, (g, mkWorld rest pins clk out)).
Proof.
  intros Hpre Hs. revert fuel.
  induction Hpre as [| x pre Hx Hpre IH]; intros fuel Hfuel;
    (destruct fuel as [| fuel]; [inversion Hfuel |]);
    cbn [poll_while app]; unfold bind; rewrite getAdcBoolean_run.
  - rewrite Hs. destruct while_state; reflexivity.
  - rewrite Hx, eqb_reflx. apply IH. cbn [length] in Hfuel. lia.
Qed.

(** If every sample of the script is answered [while_state] the loop is
    still polling when the script ends. *)
Lemma poll_while_blocked (while_state : bool) (g : Sketch) (pre : list Z)
      (pins : list bool) (clk : list Z) (out : list Output) (fuel : nat) :
  Forall (fun x => answer g x = while_state) pre ->
  poll_while while_state fuel (g, mkWorld pre pins clk out) = None.
Proof.
  intros Hpre. revert fuel.
  induction Hpre as [| x pre Hx Hpre IH]; intros [| fuel]; try reflexivity.
  cbn [poll_while]. unfold bind. rewrite getAdcBoolean_run.
  rewrite Hx, eqb_reflx. apply IH.
Qed.

Lemma poll_run (while_state : bool) (g : Sketch) (pre : list Z)
      (s : Z) (rest : list Z) (pins : list bool) (clk : list Z)
      (out : list Output) :
  Forall (fun x => answer g x = while_state) pre ->
  answer g s = negb while_state ->
  poll while_state (g, mkWorld (pre ++ s :: rest) pins clk out)
  = Some (tt, (g, mkWorld rest pins clk out)).
Proof.
  intros Hpre Hs. unfold poll. apply poll_while_run; auto.
  cbn [snd adc_in]. rewrite length_app. cbn [length]. lia.
Qed.

(** [synchronizeToRotation] skips samples answered HIGH, the first one
    answered LOW, then samples answered LOW, and returns the clock reading
    taken after the first sample answered HIGH.  Both waits decide from
    the same stored state, since nothing stores the answers. *)
Lemma synchronizeToRotation_run (g : Sketch) (pre1 : list Z) (a : Z)
      (pre2 : list Z) (b : Z) (rest : list Z) (pins : list bool)
      (t : Z) (clk : list Z) (out : list Output) :
  Forall (fun x => answer g x = HIGH) pre1 ->
  answer g a = LOW ->
  Forall (fun x => answer g x = LOW) pre2 ->
  answer g b = HIGH ->
  synchronizeToRotation
    (g, mkWorld (pre1 ++ a :: pre2 ++ b :: rest) pins (t :: clk) out)
  = Some (t, (g, mkWorld rest pins clk out)).
Proof.
  intros H1 Ha H2 Hb. unfold synchronizeToRotation, bind.
  rewrite (poll_run true g pre1 a) by assumption.
  rewrite (poll_run false g pre2 b) by assumption.
  reflexivity.
Qed.

(** With the stored state HIGH, as [setup] leaves it, LOW is answered to
    the samples at or below the low threshold and HIGH to all others:
    the second wait ends at the first sample above [threshold[false]]. *)
Lemma answer_from_HIGH (g : Sketch) (s : Z) :
  adcState g = HIGH ->
  answer g s = negb (s <=? threshold g false).
Proof. intros H. unfold answer. rewrite H. reflexivity. Qed.

Lemma synchronizeToRotation_from_HIGH (g : Sketch) (pre1 : list Z) (a : Z)
      (pre2 : list Z) (b : Z) (rest : list Z) (pins : list bool)
      (t : Z) (clk : list Z) (out : list Output) :
  adcState g = HIGH ->
  Forall (fun x => threshold g false < x) pre1 ->
  a <= threshold g false ->
  Forall (fun x => x <= threshold g false) pre2 ->
  threshold g false < b ->
  synchronizeToRotation
    (g, mkWorld (pre1 ++ a :: pre2 ++ b :: rest) pins (t :: clk) out)
  = Some (t, (g, mkWorld rest pins clk out)).
Proof.
  intros Hg H1 Ha H2 Hb.
  apply synchronizeToRotation_run; unfold HIGH, LOW;
    rewrite ?Forall_forall in *; intros;
    rewrite (answer_from_HIGH g) by exact Hg.
  - destruct (Z.leb_spec x (threshold g false)); [| reflexivity].
    specialize (H1 x ltac:(assumption)). lia.
  - destruct (Z.leb_spec a (threshold g false)); [reflexivity | lia].
  - destruct (Z.leb_spec x (threshold g false)); [reflexivity |].
    specialize (H2 x ltac:(assumption)). lia.
  - destruct (Z.leb_spec b (threshold g false)); [lia | reflexivity].
Qed.

(** C4, the sketch where it departs from the specification.  After calibration on the range
    (100, 900) the thresholds are (460, 540) and [adcState] is HIGH.
    Synchronisation then reads 450 (answered LOW) and 470: the second
    wait ends there, although 470 is below the high threshold 540, and
    the clock reading 1000 taken at that moment becomes startTime; the
    sample 600 is left unread. *)
Theorem synchronize_ends_inside_dead_band :
  let g := with_thresholds (460, 540) initial in
  synchronizeToRotation (g, mkWorld [450; 470; 600] [] [1000] [])
    = Some (1000, (g, mkWorld [600] [] [] [])) /\
  adcState g = HIGH /\
  470 < threshold g true /\
  (exists g',
     setup (boot (mkWorld [100; 900; 450; 470; 600]
                          [true; true; false] [1; 2; 1000] []))
       = Some (tt, (g', mkWorld [600] [] []
                          [NewRange 100 100 1; NewRange 100 900 2])) /\
     threshold g' false = 460 /\ threshold g' true = 540 /\
     startTime g' = 1000 /\ adcState g' = HIGH).
Proof.
  intros g. split; [reflexivity |]. split; [reflexivity |].
  split; [cbn; lia |].
  eexists. split; [vm_compute; reflexivity |]. repeat split.
Qed.

(** ** Range sampling *)

(** One iteration with the trigger still HIGH.  The report depends on
    [newLimit], which is set when a bound moves and is never cleared. *)
Lemma sense_while_step (fuel : nat) (newLimit : bool) (g : Sketch)
      (v : Z) (adc : list Z) (pins : list bool) (clk : list Z)
      (out : list Output) :
  sense_while (S fuel) newLimit (g, mkWorld (v :: adc) (true :: pins) clk out)
  = if moves v g || newLimit then
      match clk with
      | [] => None
      | now :: clk' =>
          sense_while fuel true
            (widen v g,
             mkWorld adc pins clk'
               (out ++ [NewRange (threshold (widen v g) false)
                                 (threshold (widen v g) true) now]))
      end
    else sense_while fuel false (widen v g, mkWorld adc pins clk out).
Proof.
  cbn [sense_while]. unfold bind, digitalRead, analogRead, globals, modify, ret,
    moves, widen.
  cbn [fst snd pin_in adc_in clock_in serial].
  destruct (v <? threshold g false) eqn:Elo; cbn [fst snd];
    [ replace (threshold (set_threshold false v g) true)
        with (threshold g true) by reflexivity |];
    destruct (v >? threshold g true) eqn:Ehi; cbn [fst snd orb];
    try (destruct clk; reflexivity);
    destruct newLimit; cbn [fst snd]; try reflexivity;
    destruct clk; reflexivity.
Qed.

Lemma sense_while_stop (fuel : nat) (newLimit : bool) (g : Sketch)
      (adc : list Z) (pins : list bool) (clk : list Z) (out : list Output) :
  sense_while (S fuel) newLimit (g, mkWorld adc (false :: pins) clk out)
  = Some (tt, (g, mkWorld adc pins clk out)).
Proof. reflexivity. Qed.

Lemma widen_bounds (v : Z) (g : Sketch) :
  threshold (widen v g) false = Z.min v (threshold g false) /\
  threshold (widen v g) true = Z.max v (threshold g true).
Proof.
  unfold widen.
  destruct (Z.ltb_spec v (threshold g false));
    [ replace (threshold (set_threshold false v g) true)
        with (threshold g true) by reflexivity |];
    destruct (Z.gtb_spec v (threshold g true)); cbn [threshold set_threshold
      threshold_false threshold_true] in *; lia.
Qed.

Lemma widen_frame (v : Z) (g : Sketch) :
  adcState (widen v g) = adcState g /\
  startTime (widen v g) = startTime g /\
  revolutionStart (widen v g) = revolutionStart g /\
  revolutions (widen v g) = revolutions g.
Proof.
  unfold widen.
  destruct (v <? threshold g false);
    [ replace (threshold (set_threshold false v g) true)
        with (threshold g true) by reflexivity |];
    destruct (v >? threshold g true); repeat split.
Qed.

(** Over the whole loop the low bound only goes down and the high bound
    only goes up. *)
Lemma sense_while_monotone (fuel : nat) :
  forall (newLimit : bool) (g g' : Sketch) (w w' : World),
    sense_while fuel newLimit (g, w) = Some (tt, (g', w')) ->
    threshold g' false <= threshold g false /\
    threshold g true <= threshold g' true.
Proof.
  induction fuel as [| fuel IH]; intros newLimit g g' w w' Hrun;
    [discriminate Hrun |].
  destruct w as [adc pins clk out].
  destruct pins as [| [|] pins]; [discriminate Hrun | |].
  - destruct adc as [| v adc]; [discriminate Hrun |].
    rewrite sense_while_step in Hrun.
    pose proof (widen_bounds v g) as [Hlo Hhi].
    destruct (moves v g || newLimit).
    + destruct clk as [| now clk']; [discriminate Hrun |].
      apply IH in Hrun. lia.
    + apply IH in Hrun. lia.
  - rewrite sense_while_stop in Hrun. injection Hrun as <- _. lia.
Qed.

(** Once a bound has moved, every later iteration prints a line, whether
    or not it moves a bound itself. *)
Lemma sense_while_reports_ever_after (fuel : nat) (g : Sketch)
      (v : Z) (adc : list Z) (pins : list bool) (now : Z) (clk : list Z)
      (out : list Output) :
  sense_while (S fuel) true
    (g, mkWorld (v :: adc) (true :: pins) (now :: clk) out)
  = sense_while fuel true
      (widen v g,
       mkWorld adc pins clk
         (out ++ [NewRange (threshold (widen v g) false)
                           (threshold (widen v g) true) now])).
Proof. rewrite sense_while_step, orb_true_r. reflexivity. Qed.

(** C6, the sketch where it departs from the specification.  The trigger stays HIGH for two
    iterations and both samples are 500.  The first iteration moves both
    bounds and reports [500, 500] at clock reading 10; the second moves
    neither bound and reports all the same, at 20. *)
Theorem range_report_repeats :
  let w := mkWorld [500; 500] [true; true; false] [10; 20] [] in
  exists g1 g2,
    getActiveSenseRange (boot w)
      = Some (tt, (g2, mkWorld [] [] []
                         [NewRange 500 500 10; NewRange 500 500 20])) /\
    getActiveSenseRange (boot (mkWorld [500] [true; false] [10] []))
      = Some (tt, (g1, mkWorld [] [] [] [NewRange 500 500 10])) /\
    moves 500 g1 = false /\
    threshold g2 false = threshold g1 false /\
    threshold g2 true = threshold g1 true.
Proof.
  intros w. do 2 eexists.
  split; [vm_compute; reflexivity |].
  split; [vm_compute; reflexivity |].
  repeat split.
Qed.

Section Deliverable.

Lemma widen_ordered (v : Z) (g : Sketch) :
  raw v -> deliverable g -> ordered (widen v g).
Proof.
  unfold raw, deliverable, ordered, MIN_ADC, MAX_ADC.
  intros Hv Hg. destruct (widen_bounds v g) as [-> ->]. lia.
Qed.

Lemma sense_while_deliverable (fuel : nat) :
  forall (newLimit : bool) (g g' : Sketch) (w w' : World),
    Forall raw (adc_in w) ->
    deliverable g ->
    sense_while fuel newLimit (g, w) = Some (tt, (g', w')) ->
    deliverable g'.
Proof.
  induction fuel as [| fuel IH]; intros newLimit g g' w w' Hraw Hg Hrun;
    [discriminate Hrun |].
  destruct w as [adc pins clk out]. cbn [adc_in] in Hraw.
  destruct pins as [| [|] pins]; [discriminate Hrun | |].
  - destruct adc as [| v adc]; [discriminate Hrun |].
    rewrite sense_while_step in Hrun.
    inversion Hraw as [| ? ? Hv Hrest]; subst.
    pose proof (widen_ordered v g Hv Hg) as Hord.
    destruct (moves v g || newLimit).
    + destruct clk as [| now clk']; [discriminate Hrun |].
      eapply IH; [| right; exact Hord | exact Hrun]. exact Hrest.
    + eapply IH; [| right; exact Hord | exact Hrun]. exact Hrest.
  - rewrite sense_while_stop in Hrun. injection Hrun as <- _. exact Hg.
Qed.

(** Whatever the globals held before, on in-domain samples
    [getActiveSenseRange] ends with a deliverable range. *)
Lemma getActiveSenseRange_deliverable (g g' : Sketch) (w w' : World) :
  Forall raw (adc_in w) ->
  getActiveSenseRange (g, w) = Some (tt, (g', w')) ->
  deliverable g'.
Proof.
  intros Hraw Hrun. unfold getActiveSenseRange, bind, modify in Hrun.
  cbn [fst snd] in Hrun.
  eapply sense_while_deliverable; [exact Hraw | | exact Hrun].
  left. split; reflexivity.
Qed.

End Deliverable.

(** Range sampling returns as soon as the trigger reads LOW, provided the
    script holds a sample and a clock reading for every iteration
    before. *)
Lemma sense_while_returns (n : nat) :
  forall (newLimit : bool) (g : Sketch) (adc : list Z) (pins : list bool)
         (clk : list Z) (out : list Output) (fuel : nat),
    (n <= length adc)%nat -> (n <= length clk)%nat -> (n < fuel)%nat ->
    exists g' w',
      sense_while fuel newLimit
        (g, mkWorld adc (repeat true n ++ false :: pins) clk out)
      = Some (tt, (g', w')) /\
      pin_in w' = pins.
Proof.
  induction n as [| n IH]; intros newLimit g adc pins clk out fuel Ha Hc Hf;
    (destruct fuel as [| fuel]; [inversion Hf |]).
  - cbn [repeat app]. rewrite sense_while_stop. eauto.
  - destruct adc as [| v adc]; [inversion Ha |].
    destruct clk as [| now clk]; [inversion Hc |].
    cbn [repeat app length] in *. rewrite sense_while_step.
    destruct (moves v g || newLimit).
    + apply IH; lia.
    + destruct (IH false (widen v g) adc pins (now :: clk) out fuel)
        as [g' [w' H]]; cbn [length]; try lia. eauto.
Qed.

(** * Further properties of the sketch *)

(** ** Sequencing *)

Lemma bind_Some {A B : Type} (c : M A) (k : A -> M B) (s : St) (r : B * St) :
  bind c k s = Some r ->
  exists a s', c s = Some (a, s') /\ k a s' = Some r.
Proof.
  unfold bind. destruct (c s) as [[a s'] |]; [eauto | discriminate].
Qed.

(** ** Range sampling, whole runs *)

Lemma widen_eq (v : Z) (g : Sketch) :
  widen v g
  = with_thresholds (Z.min v (threshold g false), Z.max v (threshold g true)) g.
Proof.
  pose proof (widen_bounds v g) as [Hlo Hhi].
  pose proof (widen_frame v g) as [Ha [Hs [Hr Hn]]].
  destruct (widen v g) as [lo' hi' a' s' r' n'].
  cbn [threshold adcState startTime revolutionStart revolutions
       threshold_false threshold_true] in *.
  subst. reflexivity.
Qed.

Lemma fold_min_acc (v lo : Z) (vs : list Z) :
  fold_right Z.min (Z.min v lo) vs = Z.min v (fold_right Z.min lo vs).
Proof. induction vs as [| x vs IH]; cbn [fold_right]; lia. Qed.

Lemma fold_max_acc (v hi : Z) (vs : list Z) :
  fold_right Z.max (Z.max v hi) vs = Z.max v (fold_right Z.max hi vs).
Proof. induction vs as [| x vs IH]; cbn [fold_right]; lia. Qed.

Lemma with_thresholds_twice (p q : Z * Z) (g : Sketch) :
  with_thresholds p (with_thresholds q g) = with_thresholds p g.
Proof. reflexivity. Qed.

(** With [newLimit] set, the loop reads one sample and one clock reading
    per HIGH reading of the trigger and stops at the first LOW one. *)
Lemma sense_while_true_run (vs : list Z) :
  forall (ts : list Z) (g : Sketch) (rest : list Z) (pins : list bool)
         (clk : list Z) (out : list Output) (fuel : nat),
    length ts = length vs ->
    (length vs < fuel)%nat ->
    sense_while fuel true
      (g, mkWorld (vs ++ rest) (repeat true (length vs) ++ false :: pins)
                  (ts ++ clk) out)
    = Some (tt,
            (with_thresholds (fold_right Z.min (threshold g false) vs,
                              fold_right Z.max (threshold g true) vs)
               (with_thresholds (threshold g false, threshold g true) g),
             mkWorld rest pins clk
               (out ++ range_lines (threshold g false) (threshold g true) vs ts))).
Proof.
  induction vs as [| v vs IH]; intros ts g rest pins clk out fuel Hlen Hfuel;
    (destruct fuel as [| fuel]; [inversion Hfuel |]).
  - destruct ts; [| discriminate Hlen].
    cbn [repeat app length fold_right range_lines].
    rewrite sense_while_stop, app_nil_r. destruct g; reflexivity.
  - destruct ts as [| t ts]; [discriminate Hlen |].
    cbn [repeat app length] in *.
    rewrite sense_while_reports_ever_after.
    rewrite IH by lia.
    destruct (widen_bounds v g) as [-> ->].
    rewrite widen_eq, !with_thresholds_twice.
    cbn [fold_right range_lines].
    rewrite fold_min_acc, fold_max_acc, <- app_assoc.
    reflexivity.
Qed.

Lemma first_sample_moves (v : Z) (g : Sketch) :
  moves v (with_thresholds (MAX_ADC, MIN_ADC) g) = true.
Proof.
  unfold moves, MAX_ADC, MIN_ADC. cbn [threshold with_thresholds set_threshold
    threshold_false threshold_true fst snd].
  destruct (Z.ltb_spec v 1023); [reflexivity |].
  destruct (Z.gtb_spec v 0); [reflexivity | lia].
Qed.

(** X1. While the trigger reads HIGH [getActiveSenseRange] reads one
    sample per reading, and it returns at the first LOW reading: the low
    bound is then the least of the samples read (1023 if there is none),
    the high bound the greatest (0 if there is none), the other globals
    are as before, and one line per sample has been printed, each with
    the bounds reached so far and its own clock reading. *)
Theorem getActiveSenseRange_min_max
        (vs ts : list Z) (g : Sketch) (rest : list Z) (pins : list bool)
        (clk : list Z) (out : list Output) :
  length ts = length vs ->
  getActiveSenseRange
    (g, mkWorld (vs ++ rest) (repeat true (length vs) ++ false :: pins)
                (ts ++ clk) out)
  = Some (tt,
          (with_thresholds (fold_right Z.min MAX_ADC vs,
                            fold_right Z.max MIN_ADC vs) g,
           mkWorld rest pins clk (out ++ range_lines MAX_ADC MIN_ADC vs ts))).
Proof.
  intros Hlen. unfold getActiveSenseRange, bind, modify.
  cbn [fst snd pin_in].
  change (set_threshold true MIN_ADC (set_threshold false MAX_ADC g))
    with (with_thresholds (MAX_ADC, MIN_ADC) g).
  destruct vs as [| v vs].
  - destruct ts; [| discriminate Hlen].
    cbn [repeat app length fold_right range_lines].
    rewrite sense_while_stop, app_nil_r. reflexivity.
  - destruct ts as [| t ts]; [discriminate Hlen |].
    cbn [repeat app length] in *.
    rewrite sense_while_step, first_sample_moves. cbn [orb].
    rewrite sense_while_true_run;
      [| lia | rewrite length_app, repeat_length; cbn [length]; lia].
    destruct (widen_bounds v (with_thresholds (MAX_ADC, MIN_ADC) g)) as [-> ->].
    rewrite widen_eq, !with_thresholds_twice.
    rewrite !threshold_with_thresholds. cbn [fst snd fold_right range_lines].
    rewrite fold_min_acc, fold_max_acc, <- app_assoc.
    reflexivity.
Qed.

Lemma getActiveSenseRange_min_max_witness :
  getActiveSenseRange
    (boot (mkWorld [700; 300; 500] [true; true; true; false] [5; 6; 7] []))
  = Some (tt,
          (with_thresholds (300, 700) initial,
           mkWorld [] [] []
             [NewRange 700 700 5; NewRange 300 700 6; NewRange 300 700 7])).
Proof.
  apply (getActiveSenseRange_min_max [700; 300; 500] [5; 6; 7] initial [] [] [] []).
  reflexivity.
Defined.

(** As long as the trigger reads HIGH the loop goes on. *)
Lemma sense_while_never_low (fuel : nat) :
  forall (newLimit : bool) (g : Sketch) (adc : list Z) (pins : list bool)
         (clk : list Z) (out : list Output),
    Forall (fun p => p = true) pins ->
    sense_while fuel newLimit (g, mkWorld adc pins clk out) = None.
Proof.
  induction fuel as [| fuel IH]; intros newLimit g adc pins clk out Hpins;
    [reflexivity |].
  destruct Hpins as [| p pins -> Hpins]; [reflexivity |].
  destruct adc as [| v adc]; [reflexivity |].
  rewrite sense_while_step.
  destruct (moves v g || newLimit).
  - destruct clk as [| now clk]; [reflexivity | now apply IH].
  - now apply IH.
Qed.

(** X2. Range sampling has no timeout: on a script in which the trigger
    never reads LOW, [getActiveSenseRange] has not returned when the
    script ends, whatever the samples and however many there are. *)
Theorem getActiveSenseRange_no_timeout
        (g : Sketch) (adc : list Z) (pins : list bool)
        (clk : list Z) (out : list Output) :
  Forall (fun p => p = true) pins ->
  getActiveSenseRange (g, mkWorld adc pins clk out) = None.
Proof.
  intros Hpins. unfold getActiveSenseRange, bind, modify. cbn [fst snd].
  now apply sense_while_never_low.
Qed.

Lemma getActiveSenseRange_no_timeout_witness :
  getActiveSenseRange
    (boot (mkWorld [500; 100; 900; 500] [true; true; true] [1; 2; 3; 4] []))
  = None.
Proof.
  apply getActiveSenseRange_no_timeout. repeat constructor.
Defined.

(** ** Synchronisation, whole runs *)

(** A wait that ends has read samples answered [while_state], then one
    answered otherwise, and nothing else has changed. *)
Lemma poll_while_inv (fuel : nat) :
  forall (while_state : bool) (g g' : Sketch) (w w' : World),
    poll_while while_state fuel (g, w) = Some (tt, (g', w')) ->
    g' = g /\
    pin_in w' = pin_in w /\ clock_in w' = clock_in w /\ serial w' = serial w /\
    exists pre s,
      adc_in w = pre ++ s :: adc_in w' /\
      Forall (fun x => answer g x = while_state) pre /\
      answer g s = negb while_state.
Proof.
  induction fuel as [| fuel IH]; intros ws g g' w w' Hrun;
    [discriminate Hrun |].
  destruct w as [adc pins clk out].
  destruct adc as [| x adc]; [discriminate Hrun |].
  cbn [poll_while] in Hrun. unfold bind in Hrun.
  rewrite getAdcBoolean_run in Hrun.
  destruct (Bool.eqb (answer g x) ws) eqn:E.
  - apply eqb_prop in E.
    destruct (IH _ _ _ _ _ Hrun) as [Hg [Hp [Hc [Ho [pre [s [Ha [Hpre Hs]]]]]]]].
    cbn [adc_in pin_in clock_in serial] in *.
    repeat (split; [assumption |]).
    exists (x :: pre), s. rewrite Ha. repeat split; auto.
  - injection Hrun as <- <-. cbn [adc_in pin_in clock_in serial].
    repeat (split; [reflexivity |]).
    exists [], x. repeat split; auto.
    destruct (answer g x), ws; try reflexivity; discriminate E.
Qed.

(** X3. Whenever [synchronizeToRotation] returns, it has changed no
    global and printed nothing; it has read a run of samples the detector
    answers HIGH, one it answers LOW, a run it answers LOW and one it
    answers HIGH, all judged from the state stored at entry (so at least
    two samples), and then one clock reading, which is the value
    returned. *)
Theorem synchronizeToRotation_inv (g g' : Sketch) (w w' : World) (t : Z) :
  synchronizeToRotation (g, w) = Some (t, (g', w')) ->
  g' = g /\
  serial w' = serial w /\
  pin_in w' = pin_in w /\
  clock_in w = t :: clock_in w' /\
  exists pre1 a pre2 b,
    adc_in w = pre1 ++ a :: pre2 ++ b :: adc_in w' /\
    Forall (fun x => answer g x = HIGH) pre1 /\
    answer g a = LOW /\
    Forall (fun x => answer g x = LOW) pre2 /\
    answer g b = HIGH.
Proof.
  intros Hrun. unfold synchronizeToRotation in Hrun.
  apply bind_Some in Hrun as [[] [[g1 w1] [H1 Hrun]]].
  apply bind_Some in Hrun as [[] [[g2 w2] [H2 Hrun]]].
  apply poll_while_inv in H1
    as [-> [Hp1 [Hc1 [Ho1 [pre1 [a [Ha1 [Hpre1 Hlow]]]]]]]].
  apply poll_while_inv in H2
    as [-> [Hp2 [Hc2 [Ho2 [pre2 [b [Ha2 [Hpre2 Hhigh]]]]]]]].
  cbn [snd] in *.
  unfold millis in Hrun. cbn [fst snd] in Hrun.
  destruct (clock_in w2) as [| t' clk'] eqn:Hclk; [discriminate Hrun |].
  injection Hrun as <- <- <-.
  cbn [adc_in pin_in clock_in serial].
  split; [reflexivity |].
  split; [congruence |]. split; [congruence |]. split; [congruence |].
  exists pre1, a, pre2, b. rewrite Ha1, Ha2. repeat split; assumption.
Qed.

Lemma synchronizeToRotation_inv_witness :
  let g := with_thresholds (460, 540) initial in
  exists pre1 a pre2 b,
    [700; 450; 400; 470; 600] = pre1 ++ a :: pre2 ++ b :: [600] /\
    answer g a = LOW /\ answer g b = HIGH.
Proof.
  intros g.
  destruct (synchronizeToRotation_inv g g
              (mkWorld [700; 450; 400; 470; 600] [] [1000] [])
              (mkWorld [600] [] [] []) 1000 eq_refl)
    as [_ [_ [_ [_ [pre1 [a [pre2 [b [Hsplit [_ [Ha [_ Hb]]]]]]]]]]]].
  exists pre1, a, pre2, b. repeat split; assumption.
Defined.

(** Synchronisation hands the globals back as it found them. *)
Lemma synchronizeToRotation_run_globals (g g' : Sketch) (w w' : World) (t : Z) :
  synchronizeToRotation (g, w) = Some (t, (g', w')) -> g' = g.
Proof.
  intros Hrun. unfold synchronizeToRotation in Hrun.
  apply bind_Some in Hrun as [[] [[g1 w1] [H1 Hrun]]].
  apply bind_Some in Hrun as [[] [[g2 w2] [H2 Hrun]]].
  apply poll_while_inv in H1 as [-> _].
  apply poll_while_inv in H2 as [-> _].
  unfold millis in Hrun. cbn [fst snd] in Hrun.
  destruct (clock_in w2); [discriminate Hrun |].
  now injection Hrun as _ <- _.
Qed.

(** ** Start-up *)

(** Range sampling writes [threshold[]] only and consumes a prefix of the
    clock script. *)
Lemma sense_while_frame (fuel : nat) :
  forall (newLimit : bool) (g g' : Sketch) (w w' : World),
    sense_while fuel newLimit (g, w) = Some (tt, (g', w')) ->
    adcState g' = adcState g /\
    startTime g' = startTime g /\
    revolutionStart g' = revolutionStart g /\
    revolutions g' = revolutions g /\
    exists used, clock_in w = used ++ clock_in w'.
Proof.
  induction fuel as [| fuel IH]; intros newLimit g g' w w' Hrun;
    [discriminate Hrun |].
  destruct w as [adc pins clk out].
  destruct pins as [| [|] pins]; [discriminate Hrun | |].
  - destruct adc as [| v adc]; [discriminate Hrun |].
    rewrite sense_while_step in Hrun.
    pose proof (widen_frame v g) as [Ha [Hs [Hr Hn]]].
    destruct (moves v g || newLimit).
    + destruct clk as [| now clk']; [discriminate Hrun |].
      apply IH in Hrun as [Ha' [Hs' [Hr' [Hn' [used Hused]]]]].
      cbn [clock_in] in *.
      repeat split; try congruence.
      exists (now :: used). rewrite Hused. reflexivity.
    + apply IH in Hrun as [Ha' [Hs' [Hr' [Hn' [used Hused]]]]].
      repeat split; try congruence. exists used. exact Hused.
  - rewrite sense_while_stop in Hrun. injection Hrun as <- <-.
    repeat split. exists []. reflexivity.
Qed.

Lemma getActiveSenseRange_frame (g g' : Sketch) (w w' : World) :
  getActiveSenseRange (g, w) = Some (tt, (g', w')) ->
  adcState g' = adcState g /\
  startTime g' = startTime g /\
  revolutionStart g' = revolutionStart g /\
  revolutions g' = revolutions g /\
  exists used, clock_in w = used ++ clock_in w'.
Proof.
  intros Hrun. unfold getActiveSenseRange, bind, modify in Hrun.
  cbn [fst snd] in Hrun.
  apply sense_while_frame in Hrun. exact Hrun.
Qed.

(** Calibrating a deliverable range gives thresholds in order inside the
    ADC domain; for the inverted extremes these are (471, 551). *)
Lemma derived_ordered (g : Sketch) :
  deliverable g ->
  ordered (with_thresholds (derived (threshold g false) (threshold g true)) g).
Proof.
  intros [[-> ->] | Hord]; unfold ordered; rewrite !threshold_with_thresholds.
  - vm_compute. repeat split; discriminate.
  - pose proof (median_bounds _ _ Hord) as Hm.
    pose proof (halfBand_bounds _ _ Hord) as Hh.
    rewrite (derived_exact _ _ Hord). cbn [fst snd].
    unfold ordered, MIN_ADC, MAX_ADC in *. lia.
Qed.

(** The steps of [setup], one after the other. *)
Lemma setup_inv (g g' : Sketch) (w w' : World) :
  setup (g, w) = Some (tt, (g', w')) ->
  exists g1 w1 t,
    getActiveSenseRange (g, w) = Some (tt, (g1, w1)) /\
    let g2 := with_thresholds (derived (threshold g1 false) (threshold g1 true)) g1 in
    synchronizeToRotation (g2, w1) = Some (t, (g2, w')) /\
    g' = set_revolutionStart t (set_startTime t g2).
Proof.
  intros Hrun. unfold setup in Hrun.
  apply bind_Some in Hrun as [[] [[g1 w1] [H1 Hrun]]].
  apply bind_Some in Hrun as [[] [[g2 w2] [H2 Hrun]]].
  apply bind_Some in Hrun as [t [[g3 w3] [H3 Hrun]]].
  rewrite calibrateBooleanSense_run in H2. injection H2 as <- <-.
  pose proof (synchronizeToRotation_run_globals _ _ _ _ _ H3) as ->.
  exists g1, w1, t. split; [exact H1 |].
  unfold bind, modify, globals in Hrun. cbn [fst snd] in Hrun.
  injection Hrun as <- <-. split; [exact H3 | reflexivity].
Qed.

(** X4. Whenever [setup] returns, it has left [adcState] and
    [revolutions] as they were (so the first [loop] starts from the
    declared HIGH and 0), and both [startTime] and [revolutionStart] hold
    the last clock reading it took. *)
Theorem setup_time_zero (g g' : Sketch) (w w' : World) :
  setup (g, w) = Some (tt, (g', w')) ->
  adcState g' = adcState g /\
  revolutions g' = revolutions g /\
  revolutionStart g' = startTime g' /\
  exists used, clock_in w = used ++ startTime g' :: clock_in w'.
Proof.
  intros Hrun.
  apply setup_inv in Hrun as [g1 [w1 [t [Hsense [Hsync ->]]]]].
  apply getActiveSenseRange_frame in Hsense as [Ha [_ [_ [Hn [used Hused]]]]].
  cbn [adcState revolutions revolutionStart startTime set_revolutionStart
       set_startTime with_thresholds set_threshold].
  repeat split; try assumption.
  unfold synchronizeToRotation in Hsync.
  apply bind_Some in Hsync as [[] [[g3 w3] [H3 Hsync]]].
  apply bind_Some in Hsync as [[] [[g4 w4] [H4 Hsync]]].
  apply poll_while_inv in H3 as [_ [_ [Hc3 _]]].
  apply poll_while_inv in H4 as [_ [_ [Hc4 _]]].
  unfold millis in Hsync. cbn [fst snd] in *.
  destruct (clock_in w4) as [| t' clk'] eqn:Hclk; [discriminate Hsync |].
  injection Hsync as Ht _ Hw. subst t' w'. cbn [clock_in].
  exists used. rewrite Hused. congruence.
Qed.

Lemma setup_time_zero_witness :
  exists g' w',
    setup (boot (mkWorld [100; 900; 450; 600] [true; true; false] [1; 2; 1000] []))
      = Some (tt, (g', w')) /\
    adcState g' = HIGH /\ revolutions g' = 0 /\
    revolutionStart g' = startTime g'.
Proof.
  eexists. eexists. split; [vm_compute; reflexivity |].
  destruct (setup_time_zero initial _ _ _
              (eq_refl : setup (boot (mkWorld [100; 900; 450; 600]
                                        [true; true; false] [1; 2; 1000] []))
                         = Some (tt, (set_revolutionStart 1000
                                        (set_startTime 1000
                                           (with_thresholds (460, 540) initial)),
                                      mkWorld [] [] []
                                        [NewRange 100 100 1; NewRange 100 900 2]))))
    as [Ha [Hn [Hr _]]].
  repeat split; assumption.
Defined.

(** X5. Whenever [setup] returns on samples inside the ADC domain, the
    thresholds it leaves satisfy 0 <= threshold[false] <= threshold[true]
    <= 1023, also when the trigger was LOW from the start and no sample
    was taken for the range. *)
Theorem setup_thresholds_ordered (g g' : Sketch) (w w' : World) :
  Forall raw (adc_in w) ->
  setup (g, w) = Some (tt, (g', w')) ->
  MIN_ADC <= threshold g' false /\
  threshold g' false <= threshold g' true /\
  threshold g' true <= MAX_ADC.
Proof.
  intros Hraw Hrun.
  apply setup_inv in Hrun as [g1 [w1 [t [Hsense [_ ->]]]]].
  apply getActiveSenseRange_deliverable in Hsense; [| exact Hraw].
  apply derived_ordered in Hsense. exact Hsense.
Qed.

Lemma setup_thresholds_ordered_witness :
  let g' := set_revolutionStart 1000 (set_startTime 1000
              (with_thresholds (471, 551) initial)) in
  MIN_ADC <= threshold g' false /\
  threshold g' false <= threshold g' true /\
  threshold g' true <= MAX_ADC.
Proof.
  intros g'.
  apply (setup_thresholds_ordered initial g'
           (mkWorld [450; 600] [false] [1000] [])
           (mkWorld [] [] [] [])).
  - unfold raw, MIN_ADC, MAX_ADC. repeat constructor; lia.
  - vm_compute. reflexivity.
Defined.

(** ** The revolution timer, whole runs *)

(** The two ways an iteration of [loop] can complete. *)
Lemma loop_inv (g g' : Sketch) (w w' : World) :
  loop (g, w) = Some (tt, (g', w')) ->
  exists s,
    adc_in w = s :: adc_in w' /\ pin_in w' = pin_in w /\
    ((adcState g = HIGH /\ answer g s = LOW /\
      exists t,
        clock_in w = t :: clock_in w' /\
        g' = set_adcState LOW
               (set_revolutionStart t
                  (set_revolutions (uint (revolutions g + 1)) g)) /\
        serial w'
        = serial w ++
          [Revolution (uint (revolutions g + 1))
             (ulong (t - revolutionStart g))
             (fdiv 1000 (inject_Z (ulong (t - revolutionStart g))))
             (fdiv (inject_Z (uint (revolutions g + 1)) * 1000)
                   (inject_Z (ulong (t - startTime g))))])
     \/
     (adcState g && negb (answer g s) = false /\
      clock_in w' = clock_in w /\ serial w' = serial w /\
      g' = set_adcState (answer g s) g)).
Proof.
  destruct w as [adc pins clk out]. intros Hloop.
  destruct adc as [| s rest]; [discriminate Hloop |].
  exists s.
  destruct (adcState g && negb (answer g s)) eqn:Hedge.
  - destruct clk as [| t clk'].
    + rewrite loop_edge_blocked in Hloop by exact Hedge. discriminate Hloop.
    + rewrite loop_edge in Hloop by exact Hedge.
      injection Hloop as <- <-. cbn [adc_in pin_in clock_in serial].
      apply andb_prop in Hedge as [Hprev Hnow].
      apply negb_true_iff in Hnow.
      split; [reflexivity |]. split; [reflexivity |]. left.
      split; [exact Hprev |]. split; [exact Hnow |].
      exists t. rewrite Hnow. repeat split.
  - rewrite loop_no_edge in Hloop by exact Hedge.
    injection Hloop as <- <-. cbn [adc_in pin_in clock_in serial].
    split; [reflexivity |]. split; [reflexivity |]. right. repeat split.
Qed.

Lemma last_cons {A : Type} (a d : A) (l : list A) :
  last (a :: l) d = last l a.
Proof.
  revert a d. induction l as [| b l IH]; intros a d; [reflexivity |].
  change (last (a :: b :: l) d) with (last (b :: l) d).
  rewrite (IH b d), (IH b a). reflexivity.
Qed.

Lemma reaching_high_cons (g : Sketch) (s : Z) (vs : list Z) :
  reaching_high g (s :: vs)
  = ((if s >=? threshold g true then 1 else 0) + reaching_high g vs)%nat.
Proof.
  unfold reaching_high. cbn [filter].
  destruct (s >=? threshold g true); reflexivity.
Qed.

Lemma uint_succ_add (r : Z) (k : nat) :
  uint (uint (r + 1) + Z.of_nat k) = uint (r + Z.of_nat (S k)).
Proof.
  unfold uint. rewrite Zplus_mod_idemp_l. f_equal. lia.
Qed.

Lemma ulong_telescope (a b c x : Z) :
  ulong (c - b) = ulong x ->
  ulong (c - a) = ulong (ulong (b - a) + x).
Proof.
  unfold ulong. intros H.
  rewrite Zplus_mod_idemp_l.
  replace (c - a) with ((b - a) + (c - b)) by lia.
  rewrite Zplus_mod, H, <- Zplus_mod. reflexivity.
Qed.

(** What [n] iterations of [loop] leave behind. *)
Lemma loops_trace (n : nat) :
  forall (g g' : Sketch) (w w' : World),
    loops n (g, w) = Some (tt, (g', w')) ->
    exists consumed stamps lines,
      adc_in w = consumed ++ adc_in w' /\
      length consumed = n /\
      clock_in w = stamps ++ clock_in w' /\
      serial w' = serial w ++ lines /\
      length lines = length stamps /\
      pin_in w' = pin_in w /\
      threshold g' false = threshold g false /\
      threshold g' true = threshold g true /\
      startTime g' = startTime g /\
      uint (revolutions g') = uint (revolutions g + Z.of_nat (length lines)) /\
      (lines = [] -> revolutions g' = revolutions g) /\
      (0 <= revolutions g < 65536 -> 0 <= revolutions g' < 65536) /\
      revolutionStart g' = last stamps (revolutionStart g) /\
      (length lines
       <= (if adcState g then 1 else 0) + reaching_high g consumed)%nat /\
      ulong (revolutionStart g' - revolutionStart g) = ulong (interval_sum lines).
Proof.
  induction n as [| n IH]; intros g g' w w' Hrun.
  - injection Hrun as <- <-. exists [], [], [].
    rewrite app_nil_r, Z.add_0_r, Z.sub_diag.
    repeat split; try reflexivity; try lia. apply Nat.le_0_l.
  - cbn [loops] in Hrun.
    apply bind_Some in Hrun as [[] [[g1 w1] [Hstep Hrun]]].
    apply IH in Hrun
      as (consumed & stamps & lines & Hadc & Hlen & Hclk & Hout & Hll & Hpin
          & Hlo & Hhi & Hst & Hcount & Hnone & Hfit & Hlast & Hbound & Hsum).
    apply loop_inv in Hstep as [s [Hadc1 [Hpin1 Hcase]]].
    destruct Hcase as [[Hprev [Hnow [t [Hclk1 [-> Hout1]]]]]
                      | [Hno [Hclk1 [Hout1 ->]]]].
    + match type of Hout1 with
      | _ = _ ++ [?line] =>
          exists (s :: consumed), (t :: stamps), (line :: lines)
      end.
      change (reaching_high (set_adcState _ _) consumed)
        with (reaching_high g consumed) in Hbound.
      cbn [threshold set_adcState set_revolutionStart set_revolutions
           threshold_false threshold_true startTime revolutions
           revolutionStart adcState] in *.
      rewrite Hadc1, Hadc, Hclk1, Hclk, Hout, Hout1, <- app_assoc.
      rewrite Hprev, reaching_high_cons, last_cons.
      cbn [length app interval_sum].
      repeat split; try congruence; try lia.
      * rewrite Hcount. apply uint_succ_add.
      * pose proof (Hfit (uint_range _)). lia.
      * pose proof (Hfit (uint_range _)). lia.
      * change (if LOW then 1 else 0)%nat with 0%nat in Hbound.
        change (if HIGH then 1 else 0)%nat with 1%nat.
        destruct (s >=? threshold g true); lia.
      * apply ulong_telescope. exact Hsum.
    + exists (s :: consumed), stamps, lines.
      change (reaching_high (set_adcState _ _) consumed)
        with (reaching_high g consumed) in Hbound.
      cbn [threshold set_adcState threshold_false threshold_true startTime
           revolutions revolutionStart adcState] in *.
      rewrite Hadc1, Hadc, <- Hclk1, Hclk, Hout, Hout1.
      rewrite reaching_high_cons. cbn [length app threshold].
      repeat split; try assumption; try congruence; try lia.
      unfold answer in Hno, Hbound. cbn [threshold] in Hno, Hbound.
      destruct (adcState g); cbn [andb negb] in *.
      * destruct (s <=? threshold_false g); cbn [negb] in *;
          [discriminate Hno |].
        destruct (s >=? threshold_true g); lia.
      * destruct (s >=? threshold_true g); lia.
Qed.

(** X6. However many iterations of [loop] run, they read exactly one
    sample each and never touch [threshold[]], [startTime] or the
    calibration pin. *)
Theorem loops_frame (n : nat) (g g' : Sketch) (w w' : World) :
  loops n (g, w) = Some (tt, (g', w')) ->
  threshold g' false = threshold g false /\
  threshold g' true = threshold g true /\
  startTime g' = startTime g /\
  pin_in w' = pin_in w /\
  exists consumed,
    adc_in w = consumed ++ adc_in w' /\ length consumed = n.
Proof.
  intros Hrun.
  apply loops_trace in Hrun
    as (consumed & stamps & lines & Hadc & Hlen & Hclk & Hout & Hll & Hpin
        & Hlo & Hhi & Hst & _).
  repeat split; try assumption. exists consumed. split; assumption.
Qed.

Lemma loops_frame_witness :
  let g := set_revolutionStart 1000 (set_startTime 1000
             (with_thresholds (460, 540) initial)) in
  exists g' w',
    loops 3 (g, mkWorld [600; 450; 600; 450] [] [1500; 2700] [])
      = Some (tt, (g', w')) /\
    threshold g' false = 460 /\ threshold g' true = 540 /\ startTime g' = 1000.
Proof.
  intros g. do 2 eexists. split; [vm_compute; reflexivity |].
  destruct (loops_frame 3 g _ _ _
              (eq_refl : loops 3 (g, mkWorld [600; 450; 600; 450] [] [1500; 2700] [])
                         = Some (tt, (set_adcState HIGH
                                        (set_revolutionStart 1500
                                           (set_revolutions 1 g)),
                                      mkWorld [450] [] [2700]
                                        [Revolution 1 500 (FNum 2) (FNum 2)]))))
    as [Hlo [Hhi [Hst _]]].
  repeat split; assumption.
Defined.

(** X7. Over any number of iterations of [loop], every printed line
    goes with exactly one clock reading and one counted revolution: the
    lines printed are as many as the clock readings taken, [revolutions]
    has advanced by that number modulo 2^16, and [revolutionStart] holds
    the last reading taken (or its old value if none was). *)
Theorem loops_accounting (n : nat) (g g' : Sketch) (w w' : World) :
  0 <= revolutions g < 65536 ->
  loops n (g, w) = Some (tt, (g', w')) ->
  exists stamps lines,
    clock_in w = stamps ++ clock_in w' /\
    serial w' = serial w ++ lines /\
    length lines = length stamps /\
    revolutions g' = uint (revolutions g + Z.of_nat (length lines)) /\
    revolutionStart g' = last stamps (revolutionStart g).
Proof.
  intros Hfit Hrun.
  apply loops_trace in Hrun
    as (consumed & stamps & lines & Hadc & Hlen & Hclk & Hout & Hll & Hpin
        & Hlo & Hhi & Hst & Hcount & Hnone & Hfit' & Hlast & _).
  exists stamps, lines. repeat split; try assumption.
  rewrite <- Hcount. symmetry. apply uint_small. auto.
Qed.

Lemma loops_accounting_witness :
  let g := set_revolutions 65535 (set_revolutionStart 1000 (set_startTime 1000
             (with_thresholds (460, 540) initial))) in
  let w := mkWorld [450; 600; 450] [] [1500; 2700] [] in
  exists g' w' (stamps : list Z) (lines : list Output),
    loops 3 (g, w) = Some (tt, (g', w')) /\
    clock_in w = stamps ++ clock_in w' /\
    length lines = length stamps /\
    revolutions g' = uint (65535 + Z.of_nat (length lines)).
Proof.
  intros g w.
  destruct (loops_accounting 3 g
              (set_adcState LOW (set_revolutionStart 2700 (set_revolutions 1 g)))
              w
              (mkWorld [] [] []
                 [Revolution 0 500 (FNum 2) (FNum 0);
                  Revolution 1 1200 (FNum (5 # 6)) (FNum (10 # 17))]))
    as [stamps [lines [Hclk [_ [Hll [Hcount _]]]]]].
  - cbn. lia.
  - vm_compute. reflexivity.
  - do 2 eexists. exists stamps, lines.
    split; [vm_compute; reflexivity |].
    repeat split; assumption.
Defined.

(** X8. Chatter is bounded by the high threshold: over any number of
    iterations of [loop], the revolutions reported are at most the
    samples read that were at or above [threshold[true]], plus one if the
    run began in state HIGH. *)
Theorem loops_edges_bounded (n : nat) (g g' : Sketch) (w w' : World) :
  loops n (g, w) = Some (tt, (g', w')) ->
  exists consumed lines,
    adc_in w = consumed ++ adc_in w' /\
    serial w' = serial w ++ lines /\
    (length lines
     <= (if adcState g then 1 else 0) + reaching_high g consumed)%nat.
Proof.
  intros Hrun.
  apply loops_trace in Hrun
    as (consumed & stamps & lines & Hadc & Hlen & Hclk & Hout & Hll & Hpin
        & Hlo & Hhi & Hst & Hcount & Hnone & Hfit & Hlast & Hbound & _).
  exists consumed, lines. repeat split; assumption.
Qed.

Lemma loops_edges_bounded_witness :
  let g := with_thresholds (460, 540) initial in
  let w := mkWorld [450; 470; 455; 500; 450] [] [1500; 2700] [] in
  exists g' w' consumed lines,
    loops 5 (g, w) = Some (tt, (g', w')) /\
    adc_in w = consumed ++ adc_in w' /\
    serial w' = serial w ++ lines /\
    (length lines <= 1 + reaching_high g consumed)%nat.
Proof.
  intros g w.
  destruct (loops_edges_bounded 5 g
              (set_adcState LOW (set_revolutionStart 1500 (set_revolutions 1 g)))
              w
              (mkWorld [] [] [2700]
                 [Revolution 1 1500 (FNum (2 # 3)) (FNum (2 # 3))]))
    as [consumed [lines [Hadc [Hout Hbound]]]].
  - vm_compute. reflexivity.
  - do 2 eexists. exists consumed, lines.
    split; [vm_compute; reflexivity |].
    repeat split; assumption.
Defined.

(** X9. The intervals printed over any number of iterations of [loop]
    add up, modulo 2^32, to the time from the edge before the run to the
    last edge of the run; from [setup]'s state, where [revolutionStart]
    is [startTime], that is the total interval the average is taken
    over. *)
Theorem loops_intervals_telescope (n : nat) (g g' : Sketch) (w w' : World) :
  loops n (g, w) = Some (tt, (g', w')) ->
  exists lines,
    serial w' = serial w ++ lines /\
    ulong (revolutionStart g' - revolutionStart g) = ulong (interval_sum lines) /\
    (revolutionStart g = startTime g ->
     ulong (revolutionStart g' - startTime g') = ulong (interval_sum lines)).
Proof.
  intros Hrun.
  apply loops_trace in Hrun
    as (consumed & stamps & lines & Hadc & Hlen & Hclk & Hout & Hll & Hpin
        & Hlo & Hhi & Hst & Hcount & Hnone & Hfit & Hlast & Hbound & Hsum).
  exists lines. repeat split; try assumption.
  intros Hzero. rewrite Hst, <- Hzero. exact Hsum.
Qed.

Lemma loops_intervals_telescope_witness :
  let g := set_revolutionStart 1000 (set_startTime 1000
             (with_thresholds (460, 540) initial)) in
  let w := mkWorld [600; 450; 600; 450] [] [1500; 2700] [] in
  exists g' w' lines,
    loops 4 (g, w) = Some (tt, (g', w')) /\
    serial w' = serial w ++ lines /\
    ulong (revolutionStart g' - startTime g') = ulong (interval_sum lines).
Proof.
  intros g w.
  destruct (loops_intervals_telescope 4 g
              (set_adcState LOW (set_revolutionStart 2700 (set_revolutions 2 g)))
              w
              (mkWorld [] [] []
                 [Revolution 1 500 (FNum 2) (FNum 2);
                  Revolution 2 1200 (FNum (5 # 6)) (FNum (20 # 17))]))
    as [lines [Hout [_ Hsum]]].
  - vm_compute. reflexivity.
  - do 2 eexists. exists lines.
    split; [vm_compute; reflexivity |].
    split; [exact Hout | apply Hsum; reflexivity].
Defined.

Lemma set_adcState_same (g : Sketch) : set_adcState (adcState g) g = g.
Proof. destruct g; reflexivity. Qed.

(** X10. Dead-band stability: while the samples stay strictly between
    the two thresholds, iterations of [loop] change no global, print
    nothing and leave the clock unread, whatever the stored state. *)
Theorem loops_dead_band_inert (vs : list Z) :
  forall (g : Sketch) (rest : list Z) (pins : list bool) (clk : list Z)
         (out : list Output),
    Forall (fun s => threshold g false < s < threshold g true) vs ->
    loops (length vs) (g, mkWorld (vs ++ rest) pins clk out)
    = Some (tt, (g, mkWorld rest pins clk out)).
Proof.
  induction vs as [| s vs IH]; intros g rest pins clk out Hin;
    [reflexivity |].
  inversion Hin as [| ? ? [Hlo Hhi] Hin']; subst.
  cbn [length loops app]. unfold bind at 1.
  assert (Hsame : answer g s = adcState g).
  { unfold answer. destruct (adcState g).
    - destruct (Z.leb_spec s (threshold g false)); [lia | reflexivity].
    - destruct (Z.geb_spec s (threshold g true)); [lia | reflexivity]. }
  rewrite loop_no_edge
    by (rewrite Hsame; destruct (adcState g); reflexivity).
  rewrite Hsame, set_adcState_same. apply IH. exact Hin'.
Qed.

Lemma loops_dead_band_inert_witness :
  let g := set_adcState LOW (with_thresholds (460, 540) initial) in
  loops 3 (g, mkWorld [461; 500; 539; 0] [] [7] [])
  = Some (tt, (g, mkWorld [0] [] [7] [])).
Proof.
  intros g.
  apply (loops_dead_band_inert [461; 500; 539] g [0] [] [7] []).
  repeat constructor; cbn; lia.
Defined.

(** X11. No two iterations in a row report: an iteration of [loop] that
    printed a line has stored LOW, so the next one prints nothing,
    counts nothing and leaves the clock unread. *)
Theorem loop_report_then_quiet (g g1 g2 : Sketch) (w w1 w2 : World) :
  loop (g, w) = Some (tt, (g1, w1)) ->
  loop (g1, w1) = Some (tt, (g2, w2)) ->
  serial w1 <> serial w ->
  serial w2 = serial w1 /\
  clock_in w2 = clock_in w1 /\
  revolutions g2 = revolutions g1 /\
  revolutionStart g2 = revolutionStart g1.
Proof.
  intros H1 H2 Hprinted.
  apply loop_inv in H1 as [s1 [_ [_ Hcase1]]].
  apply loop_inv in H2 as [s2 [_ [_ Hcase2]]].
  destruct Hcase1 as [[_ [_ [t1 [_ [-> _]]]]] | [_ [_ [Hsame _]]]];
    [| contradiction].
  destruct Hcase2 as [[Hprev _] | [_ [Hclk [Hout ->]]]];
    [discriminate Hprev |].
  repeat split; assumption.
Qed.

Lemma loop_report_then_quiet_witness :
  let g := with_thresholds (460, 540) initial in
  let g1 := set_adcState LOW (set_revolutionStart 1500 (set_revolutions 1 g)) in
  let w1 := mkWorld [450] [] [1600]
              [Revolution 1 1500 (FNum (2 # 3)) (FNum (2 # 3))] in
  serial (mkWorld [] [] [1600]
            [Revolution 1 1500 (FNum (2 # 3)) (FNum (2 # 3))]) = serial w1.
Proof.
  intros g g1 w1.
  apply (loop_report_then_quiet g g1 g1
           (mkWorld [450; 450] [] [1500; 1600] []) w1
           (mkWorld [] [] [1600]
              [Revolution 1 1500 (FNum (2 # 3)) (FNum (2 # 3))])).
  - vm_compute. reflexivity.
  - vm_compute. reflexivity.
  - cbn. discriminate.
Defined.

(** ** Calibration and detection together *)

(** X12. For an observed range 0 <= low <= high <= 1023 the dead band
    written by [calibrateBooleanSense] lies inside the observed range,
    is centred on the median, and is at most 80 wide and at most half
    the extent. *)
Theorem calibrate_band_inside_range (g : Sketch) (w : World) :
  MIN_ADC <= threshold g false ->
  threshold g false <= threshold g true ->
  threshold g true <= MAX_ADC ->
  exists g',
    calibrateBooleanSense (g, w) = Some (tt, (g', w)) /\
    threshold g false <= threshold g' false /\
    threshold g' true <= threshold g true /\
    threshold g' false + threshold g' true
      = 2 * median (threshold g false) (threshold g true) /\
    threshold g' true - threshold g' false <= 80 /\
    2 * (threshold g' true - threshold g' false)
      <= threshold g true - threshold g false.
Proof.
  intros H0 H1 H2.
  assert (Hdom : MIN_ADC <= threshold g false /\
                 threshold g false <= threshold g true /\
                 threshold g true <= MAX_ADC) by auto.
  pose proof (median_bounds _ _ Hdom) as Hm.
  pose proof (halfBand_bounds _ _ Hdom) as Hh.
  pose proof (halfBand_exact _ _ Hdom) as Hhe.
  eexists. split; [apply calibrateBooleanSense_run |].
  rewrite !threshold_with_thresholds, (derived_exact _ _ Hdom).
  cbn [fst snd].
  pose proof (Z.div_mod (threshold g true - threshold g false) 4 ltac:(lia)).
  pose proof (Z.mod_pos_bound (threshold g true - threshold g false) 4 ltac:(lia)).
  lia.
Qed.

Lemma calibrate_band_inside_range_witness :
  let g := with_thresholds (200, 230) initial in
  exists g',
    calibrateBooleanSense (g, mkWorld [] [] [] []) = Some (tt, (g', mkWorld [] [] [] [])) /\
    200 <= threshold g' false /\ threshold g' true <= 230.
Proof.
  intros g.
  destruct (calibrate_band_inside_range g (mkWorld [] [] [] []))
    as [g' [Hrun [Hlo [Hhi _]]]].
  - unfold MIN_ADC; simpl; lia.
  - simpl; lia.
  - unfold MAX_ADC; simpl; lia.
  - exists g'. repeat split; assumption.
Defined.

(** X13. Calibration and detection fit together: after
    [calibrateBooleanSense] on an observed range 0 <= low <= high <= 1023,
    a sample at or below the observed low switches the detector from HIGH
    to LOW, and a sample at or above the observed high switches it from
    LOW to HIGH. *)
Theorem calibrated_extremes_switch
        (g : Sketch) (w : World) (s : Z) (rest : list Z)
        (pins : list bool) (clk : list Z) (out : list Output) :
  MIN_ADC <= threshold g false ->
  threshold g false <= threshold g true ->
  threshold g true <= MAX_ADC ->
  exists g',
    calibrateBooleanSense (g, w) = Some (tt, (g', w)) /\
    (s <= threshold g false ->
     getAdcBoolean (set_adcState HIGH g', mkWorld (s :: rest) pins clk out)
     = Some (LOW, (set_adcState HIGH g', mkWorld rest pins clk out))) /\
    (threshold g true <= s ->
     getAdcBoolean (set_adcState LOW g', mkWorld (s :: rest) pins clk out)
     = Some (HIGH, (set_adcState LOW g', mkWorld rest pins clk out))).
Proof.
  intros H0 H1 H2.
  assert (Hdom : MIN_ADC <= threshold g false /\
                 threshold g false <= threshold g true /\
                 threshold g true <= MAX_ADC) by auto.
  pose proof (median_bounds _ _ Hdom) as Hm.
  pose proof (halfBand_bounds _ _ Hdom) as Hh.
  eexists. split; [apply calibrateBooleanSense_run |].
  split; intros Hs; rewrite getAdcBoolean_run; unfold answer;
    cbn [adcState set_adcState HIGH LOW];
    change (threshold (set_adcState ?b ?x) ?i) with (threshold x i);
    rewrite threshold_with_thresholds, (derived_exact _ _ Hdom);
    cbn [fst snd].
  - destruct (Z.leb_spec s (median (threshold g false) (threshold g true)
                            - halfBand (threshold g false) (threshold g true)));
      [reflexivity | lia].
  - destruct (Z.geb_spec s (median (threshold g false) (threshold g true)
                            + halfBand (threshold g false) (threshold g true)));
      [reflexivity | lia].
Qed.

Lemma calibrated_extremes_switch_witness :
  let g := with_thresholds (100, 900) initial in
  let w := mkWorld [] [] [] [] in
  exists g',
    calibrateBooleanSense (g, w) = Some (tt, (g', w)) /\
    getAdcBoolean (set_adcState HIGH g', mkWorld [100] [] [] [])
    = Some (LOW, (set_adcState HIGH g', w)).
Proof.
  intros g w.
  destruct (calibrated_extremes_switch g w 100 [] [] [] [])
    as [g' [Hrun [Hfall _]]].
  - unfold MIN_ADC; simpl; lia.
  - simpl; lia.
  - unfold MAX_ADC; simpl; lia.
  - exists g'. split; [exact Hrun | apply Hfall; simpl; lia].
Defined.

(** ** Clock wrap and the first revolution *)

Lemma ulong_wrapped_difference (t r : Z) :
  0 <= t < r -> r < 4294967296 ->
  ulong (t - r) = t + 4294967296 - r.
Proof.
  intros Ht Hr. unfold ulong. symmetry.
  apply (Z.mod_unique (t - r) 4294967296 (-1)); lia.
Qed.

(** X14. The interval survives a wrap of the millisecond clock: when a
    falling edge is read at a clock value below the previous edge time
    (the 32-bit clock has wrapped once in between), [loop] reports the
    elapsed time edge + 2^32 - previous edge, not a negative or huge
    value, and goes on from the new edge time. *)
Theorem loop_interval_across_clock_wrap
        (g : Sketch) (s : Z) (rest : list Z)
        (pins : list bool) (t : Z) (clk : list Z) (out : list Output) :
  adcState g = HIGH ->
  s <= threshold g false ->
  0 <= t < revolutionStart g ->
  revolutionStart g < 4294967296 ->
  let elapsed := t + 4294967296 - revolutionStart g in
  exists g' average,
    loop (g, mkWorld (s :: rest) pins (t :: clk) out)
      = Some (tt, (g', mkWorld rest pins clk
                         (out ++ [Revolution (uint (revolutions g + 1)) elapsed
                                    (fdiv 1000 (inject_Z elapsed)) average]))) /\
    0 < elapsed < 4294967296 /\
    revolutionStart g' = t.
Proof.
  intros Hprev Hs Ht Hr elapsed.
  assert (Hnow : answer g s = false).
  { unfold answer. rewrite Hprev. unfold HIGH.
    destruct (Z.leb_spec s (threshold g false)); [reflexivity | lia]. }
  assert (Hedge : adcState g && negb (answer g s) = true)
    by (rewrite Hprev, Hnow; reflexivity).
  do 2 eexists. split.
  - rewrite (loop_edge g s rest pins t clk out Hedge).
    rewrite (ulong_wrapped_difference t (revolutionStart g) Ht Hr).
    reflexivity.
  - split; [subst elapsed; lia | reflexivity].
Qed.

Lemma loop_interval_across_clock_wrap_witness :
  let g := set_revolutionStart 4294967000
             (set_startTime 1000 (with_thresholds (460, 540) initial)) in
  exists g' average,
    loop (g, mkWorld [450] [] [204] [])
      = Some (tt, (g', mkWorld [] [] []
                         [Revolution 1 500 (FNum 2) average])).
Proof.
  intros g.
  destruct (loop_interval_across_clock_wrap g 450 [] [] 204 [] [])
    as [g' [average [Hloop _]]].
  - reflexivity.
  - simpl; lia.
  - simpl; lia.
  - simpl; lia.
  - exists g', average. exact Hloop.
Defined.

(** X15. For the first revolution after start-up, with [revolutions] 0
    and [revolutionStart] equal to [startTime], the average speed printed
    is the turn speed printed, and the count printed is 1. *)
Theorem loop_first_revolution
        (g : Sketch) (s : Z) (rest : list Z)
        (pins : list bool) (t : Z) (clk : list Z) (out : list Output) :
  adcState g = HIGH ->
  s <= threshold g false ->
  revolutions g = 0 ->
  revolutionStart g = startTime g ->
  exists g' speed,
    loop (g, mkWorld (s :: rest) pins (t :: clk) out)
      = Some (tt, (g', mkWorld rest pins clk
                         (out ++ [Revolution 1 (ulong (t - startTime g))
                                    speed speed]))) /\
    speed = fdiv 1000 (inject_Z (ulong (t - startTime g))) /\
    revolutions g' = 1.
Proof.
  intros Hprev Hs Hzero Hstart.
  assert (Hnow : answer g s = false).
  { unfold answer. rewrite Hprev. unfold HIGH.
    destruct (Z.leb_spec s (threshold g false)); [reflexivity | lia]. }
  assert (Hedge : adcState g && negb (answer g s) = true)
    by (rewrite Hprev, Hnow; reflexivity).
  do 2 eexists. split; [| split; [reflexivity |]].
  - rewrite (loop_edge g s rest pins t clk out Hedge).
    rewrite Hzero, Hstart. reflexivity.
  - cbn [revolutions set_adcState set_revolutionStart set_revolutions].
    rewrite ?Hzero. reflexivity.
Qed.

Lemma loop_first_revolution_witness :
  let g := set_revolutionStart 1000 (set_startTime 1000
             (with_thresholds (460, 540) initial)) in
  exists g' speed,
    loop (g, mkWorld [450] [] [1500] [])
      = Some (tt, (g', mkWorld [] [] [] [Revolution 1 500 speed speed])).
Proof.
  intros g.
  destruct (loop_first_revolution g 450 [] [] 1500 [] [])
    as [g' [speed [Hloop _]]].
  - reflexivity.
  - simpl; lia.
  - reflexivity.
  - reflexivity.
  - exists g', speed. exact Hloop.
Defined.
